(** * Temperature logger: 24FC256 EEPROM driver, TMP100 driver and logging loop

    A shallow embedding of the C++ sources

    - [include/II2CController.hpp]  (bus status codes, abstract controller),
    - [include/EEPROM24FC256.hpp]   (capacity / page checks, ACK polling, Q12.4 codec),
    - [include/TMP100.hpp]          (sensor driver),
    - [include/MockEEPROM.hpp], [include/MockI2C.hpp] (the bus test doubles),
    - [include/ITimer.hpp], [include/MockTimer.hpp]   (the time source),
    - [src/main.cpp]                (10-minute logging loop, circular cursor),

    followed by the properties of the storage driver and of the logging
    controller.

    Conventions.  Fixed-width integers are [Z] with the wrap-around written
    out ([Int.to_uint16] and friends).  The C++ type [float] is IEEE-754
    binary32, modelled by [spec_float] at precision 24 and maximal exponent
    128, so every floating-point operation of the sources is evaluated with
    its rounding.  The bus controller is an object that the drivers hold by
    reference and mutate through its virtual methods: it is modelled by a
    state type [B] threaded through every call (a small state monad). *)

From Stdlib Require Import String.
From Stdlib Require Import ZArith List Bool Lia QArith Qabs SpecFloat.
Import ListNotations.
Open Scope Z_scope.

(* ================================================================== *)
(** ** Fixed-width integers *)

Module Int.

(** [static_cast<uint8_t>], [uint16_t] and [uint32_t] arithmetic: reduction
    modulo the width. *)
Definition to_uint8 (z : Z) : Z := z mod 256.
Definition to_uint16 (z : Z) : Z := z mod 65536.
Definition to_uint32 (z : Z) : Z := z mod 4294967296.

(** Narrowing to [int16_t]: two's complement wrap-around. *)
Definition to_int16 (z : Z) : Z := (z + 32768) mod 65536 - 32768.

Definition is_uint8 (z : Z) : Prop := 0 <= z < 256.
Definition is_uint16 (z : Z) : Prop := 0 <= z < 65536.
Definition is_uint32 (z : Z) : Prop := 0 <= z < 4294967296.
Definition is_int16 (z : Z) : Prop := -32768 <= z < 32768.

(** The two bytes of a 16-bit quantity, most significant first, as the
    drivers compute them: [(x >> 8) & 0xFF] and [x & 0xFF], each narrowed to
    [uint8_t].  On a negative [int16_t] the shift is arithmetic and the mask
    reads the two's complement bits. *)
Definition high_byte (x : Z) : Z := to_uint8 (Z.land (Z.shiftr x 8) 255).
Definition low_byte (x : Z) : Z := to_uint8 (Z.land x 255).

End Int.

(* ================================================================== *)
(** ** IEEE-754 binary32 ([float]) *)

Module Float32.

Definition prec : Z := 24.
Definition emax : Z := 128.

Definition float32 : Type := spec_float.

(** The values that are binary32 numbers: a finite one has a mantissa of at
    most 24 bits and an exponent in range, in canonical form. *)
Definition valid (x : float32) : bool := valid_binary prec emax x.

Definition mul : float32 -> float32 -> float32 := SFmul prec emax.
Definition div : float32 -> float32 -> float32 := SFdiv prec emax.
Definition add : float32 -> float32 -> float32 := SFadd prec emax.
Definition ltb : float32 -> float32 -> bool := SFltb.
Definition leb : float32 -> float32 -> bool := SFleb.

(** Integer to [float] conversion ([static_cast<float>(n)]), rounding to
    nearest even. *)
Definition of_Z (z : Z) : float32 := binary_normalize prec emax z 0 false.

(** Truncation toward zero of a finite value. *)
Definition trunc (x : float32) : Z :=
  match x with
  | S754_finite s m e =>
      cond_Zopp s (match e with
                   | Zneg p => Z.shiftr (Zpos m) (Zpos p)
                   | _ => Z.shiftl (Zpos m) e
                   end)
  | _ => 0
  end.

(** [static_cast<int16_t>(x)]: the fractional part is discarded.  C++ leaves
    the result undefined when the truncated value does not fit (and for NaN
    and infinities); the model narrows the truncated integer modulo 2^16
    there, and is exact whenever the truncated value is an [int16_t]. *)
Definition to_int16 (x : float32) : Z := Int.to_int16 (trunc x).

(** The rational number a float denotes (0 for NaN and infinities). *)
Definition to_Q (x : float32) : Q :=
  match x with
  | S754_finite s m e =>
      match e with
      | Zneg p => Qmake (cond_Zopp s (Zpos m)) (Pos.pow 2 p)
      | _ => inject_Z (cond_Zopp s (Zpos m) * 2 ^ e)
      end
  | _ => 0%Q
  end.

(** The literals of the sources: [16.0f], [20.0f], [-999.0f], [-900.0f],
    [0.01f] (the binary32 number nearest to 1/100) and the constant
    expression [1.0f / 16.0f]. *)
Definition f16_0 : float32 := Eval vm_compute in of_Z 16.
Definition f20_0 : float32 := Eval vm_compute in of_Z 20.
Definition fm999_0 : float32 := Eval vm_compute in of_Z (-999).
Definition fm900_0 : float32 := Eval vm_compute in of_Z (-900).
Definition f0_01 : float32 := Eval vm_compute in div (of_Z 1) (of_Z 100).
Definition f1_16 : float32 := Eval vm_compute in div (of_Z 1) (of_Z 16).

End Float32.

(* ================================================================== *)
(** ** [II2CController.hpp]: status codes and the controller interface *)

(** [enum class I2CStatus]. *)
Inductive I2CStatus : Type :=
| OK        (* Success *)
| Error     (* General error (bus error, invalid params) *)
| Nack      (* Device did not acknowledge (not present or busy) *)
| Timeout   (* Operation timed out *).

Definition I2CStatus_eqb (a b : I2CStatus) : bool :=
  match a, b with
  | OK, OK | Error, Error | Nack, Nack | Timeout, Timeout => true
  | _, _ => false
  end.

(** Computations that use the controller: the controller object is the state. *)
Definition Bus (B A : Type) : Type := B -> A * B.

Definition ret {B A : Type} (a : A) : Bus B A := fun b => (a, b).

Definition bind {B A C : Type} (m : Bus B A) (k : A -> Bus B C) : Bus B C :=
  fun b => let (a, b') := m b in k a b'.

Declare Scope bus_scope.
Delimit Scope bus_scope with bus.
Notation "x <- m ;; k" := (bind m (fun x => k))
  (at level 61, m at next level, right associativity) : bus_scope.
Notation "m ;;; k" := (bind m (fun _ => k))
  (at level 61, right associativity) : bus_scope.

(** [class II2CController].  A transmit buffer [(data, len)] is the list of its
    [len] bytes ([(nullptr, 0)] is [[]]); a receive buffer [(buffer, len)] is
    passed as the list of its current [len] bytes and handed back with the
    bytes the call left in it. *)
Class II2CController (B : Type) : Type := {
  (** START - ADDR+W - DATA[0..len-1] - STOP *)
  Write : Z -> list Z -> Bus B I2CStatus;
  (** START - ADDR+R - DATA[0..len-1] - STOP *)
  Read : Z -> list Z -> Bus B (I2CStatus * list Z);
  (** START - ADDR+W - TX - REPEATED_START - ADDR+R - RX - STOP *)
  WriteRead : Z -> list Z -> list Z -> Bus B (I2CStatus * list Z)
}.

(** The body [II2CController::WriteRead] has when a subclass does not override
    it: a separate [Write], then a [Read]. *)
Definition default_WriteRead {B : Type}
    (write : Z -> list Z -> Bus B I2CStatus)
    (read : Z -> list Z -> Bus B (I2CStatus * list Z))
    (addr : Z) (tx rx : list Z) : Bus B (I2CStatus * list Z) :=
  (st <- write addr tx ;;
   if negb (I2CStatus_eqb st OK) then ret (Error, rx)
   else read addr rx)%bus.

(** A controller class that defines [Write] and [Read] only. *)
Definition with_default_WriteRead {B : Type}
    (write : Z -> list Z -> Bus B I2CStatus)
    (read : Z -> list Z -> Bus B (I2CStatus * list Z)) : II2CController B :=
  {| Write := write; Read := read; WriteRead := default_WriteRead write read |}.

(** *** Recording the transactions a controller is asked to perform *)

Inductive BusCall : Type :=
| CallWrite (addr : Z) (data : list Z)
| CallRead (addr : Z) (len : nat)
| CallWriteRead (addr : Z) (tx : list Z) (rxLen : nat).

Record Traced (B : Type) : Type := mkTraced {
  inner : B;
  calls : list (BusCall * I2CStatus)   (* oldest first, each with its status *)
}.
Arguments mkTraced {B} _ _.
Arguments inner {B} _.
Arguments calls {B} _.

Definition traced_call {B A : Type} (c : BusCall) (status_of : A -> I2CStatus)
    (m : Bus B A) : Bus (Traced B) A :=
  fun t =>
    let (a, b') := m (inner t) in
    (a, mkTraced b' (calls t ++ [(c, status_of a)])).

#[global] Instance Traced_controller {B : Type} `{II2CController B} :
  II2CController (Traced B) := {|
  Write := fun addr data =>
    traced_call (CallWrite addr data) (fun st => st) (Write addr data);
  Read := fun addr rx =>
    traced_call (CallRead addr (List.length rx)) fst (Read addr rx);
  WriteRead := fun addr tx rx =>
    traced_call (CallWriteRead addr tx (List.length rx)) fst (WriteRead addr tx rx)
|}.

(* ================================================================== *)
(** ** [EEPROM24FC256.hpp]: the 24FC256 driver *)

Module EEPROM24FC256.

Definition CAPACITY : Z := 32768.
Definition PAGE_SIZE : Z := 64.
Definition WRITE_CYCLE_MS_MAX : Z := 5.

(** The driver object; its member [m_i2c] is the controller that [Bus]
    threads. *)
Record t : Type := mk { m_address : Z }.

Definition EncodeTemperature (temp : Float32.float32) : Z :=
  Float32.to_int16 (Float32.mul temp Float32.f16_0).

Definition DecodeTemperature (encoded : Z) : Float32.float32 :=
  Float32.div (Float32.of_Z encoded) Float32.f16_0.

Section Driver.
Context {B : Type} `{II2CController B}.

(** The [for] loop of [WaitForWriteComplete], with [attempts] iterations
    left.  The inner busy-wait touches no state. *)
Fixpoint poll (dev : t) (attempts : nat) : Bus B unit :=
  match attempts with
  | O => ret tt
  | S n =>
      (st <- Write (m_address dev) [] ;;
       if I2CStatus_eqb st OK then ret tt
       else poll dev n)%bus
  end.

Definition maxAttempts : nat := 100.

Definition WaitForWriteComplete (dev : t) : Bus B unit :=
  poll dev maxAttempts.

(** The array [payload] of [LogData]. *)
Definition payload (memAddr : Z) (encoded : Z) : list Z :=
  [ Int.high_byte memAddr; Int.low_byte memAddr;
    Int.high_byte encoded; Int.low_byte encoded ].

(** [memAddr] is a [uint16_t]; the capacity test is made in [uint32_t], the
    page numbers and [endAddr] are [uint16_t]. *)
Definition LogData (dev : t) (memAddr : Z) (temp : Float32.float32) : Bus B bool :=
  if CAPACITY <? Int.to_uint32 (memAddr + 2) then ret false
  else
    let pageNumber := Int.to_uint16 (memAddr / PAGE_SIZE) in
    let endAddr := Int.to_uint16 (memAddr + 2) in
    let nextPageNumber := Int.to_uint16 (endAddr / PAGE_SIZE) in
    if negb (pageNumber =? nextPageNumber) && (endAddr <? CAPACITY)
    then ret false
    else
      let encoded := EncodeTemperature temp in
      (st <- Write (m_address dev) (payload memAddr encoded) ;;
       if negb (I2CStatus_eqb st OK) then ret false
       else (WaitForWriteComplete dev ;;; ret true))%bus.

Definition ReadData (dev : t) (memAddr : Z) : Bus B Float32.float32 :=
  if CAPACITY - 1 <=? memAddr then ret Float32.fm999_0
  else
    let addrBytes := [ Int.high_byte memAddr; Int.low_byte memAddr ] in
    let data := [0; 0] in
    (r <- WriteRead (m_address dev) addrBytes data ;;
     let (status, data) := r in
     if negb (I2CStatus_eqb status OK) then ret Float32.fm999_0
     else
       let encoded :=
         Int.to_int16 (Z.lor (Z.shiftl (nth 0 data 0) 8) (nth 1 data 0)) in
       ret (DecodeTemperature encoded))%bus.

End Driver.

End EEPROM24FC256.

(* ================================================================== *)
(** ** [TMP100.hpp]: the temperature sensor driver *)

Module TMP100.

Definition REG_TEMPERATURE : Z := 0.
Definition REG_CONFIG : Z := 1.
Definition REG_TLOW : Z := 2.
Definition REG_THIGH : Z := 3.

(** [enum class Resolution : uint8_t]. *)
Inductive Resolution : Type := Bits_9 | Bits_10 | Bits_11 | Bits_12.

Definition Resolution_value (r : Resolution) : Z :=
  match r with
  | Bits_9 => 0
  | Bits_10 => 32
  | Bits_11 => 64
  | Bits_12 => 96
  end.

Record t : Type := mk { m_address : Z; m_configCache : Z }.

(** The constructor [TMP100(i2c, address)]. *)
Definition create (address : Z) : t := mk address 0.

Section Driver.
Context {B : Type} `{II2CController B}.

(** Returns the result and the driver object, whose [m_configCache] the call
    may have updated. *)
Definition WriteConfig (dev : t) (value : Z) : Bus B (bool * t) :=
  let tx := [REG_CONFIG; value] in
  (st <- Write (m_address dev) tx ;;
   if I2CStatus_eqb st OK then ret (true, mk (m_address dev) value)
   else ret (false, dev))%bus.

Definition Init (dev : t) : Bus B (bool * t) :=
  let config := Int.to_uint8 (Resolution_value Bits_12) in
  WriteConfig dev config.

Definition ReadTemperature (dev : t) : Bus B Float32.float32 :=
  let regAddr := REG_TEMPERATURE in
  let rawData := [0; 0] in
  (r <- WriteRead (m_address dev) [regAddr] rawData ;;
   let (status, rawData) := r in
   if negb (I2CStatus_eqb status OK) then ret Float32.fm999_0
   else
     let rawTemp :=
       Int.to_int16 (Z.lor (Z.shiftl (nth 0 rawData 0) 8) (nth 1 rawData 0)) in
     let rawTemp := Int.to_int16 (Z.shiftr rawTemp 4) in
     ret (Float32.mul (Float32.of_Z rawTemp) Float32.f1_16))%bus.

End Driver.

End TMP100.

(* ================================================================== *)
(** ** [MockEEPROM.hpp]: the stateful EEPROM test double *)

Module MockEEPROM.

Definition CAPACITY : Z := 32768.
Definition PAGE_SIZE : Z := 64.

(** [m_memory] is the array [uint8_t m_memory[CAPACITY]], as the function from
    an index to the byte stored there. *)
Record t : Type := mk {
  m_memory : Z -> Z;
  m_writeInProgress : bool;
  m_writeCycleCount : Z;
  m_writeAddress : Z
}.

(** The constructor: memory filled with 0xFF. *)
Definition create : t := mk (fun _ => 255) false 0 0.

(** [m_memory[i] = v]. *)
Definition store (mem : Z -> Z) (i v : Z) : Z -> Z :=
  fun j => if j =? i then v else mem j.

(** [for (i = 0; i < writeLen; i++) m_memory[addr + i] = data[2 + i]], with
    [bytes] the bytes [data[2 ..]] and [addr] the address of the first. *)
Fixpoint store_bytes (mem : Z -> Z) (addr : Z) (bytes : list Z) : Z -> Z :=
  match bytes with
  | [] => mem
  | v :: rest => store_bytes (store mem addr v) (addr + 1) rest
  end.

(** [for (i = 0; i < rxLen; i++) rxBuffer[i] = m_memory[addr + i]]. *)
Fixpoint load_bytes (mem : Z -> Z) (addr : Z) (rxBuffer : list Z) : list Z :=
  match rxBuffer with
  | [] => []
  | _ :: rest => mem addr :: load_bytes mem (addr + 1) rest
  end.

(** The common prologue of [Write] and [Read]: while a write cycle is in
    progress the device does not acknowledge, and the fifth such access ends
    the cycle. *)
Definition busy_step (e : t) : t :=
  let count := Int.to_uint32 (m_writeCycleCount e + 1) in
  if 5 <=? count then mk (m_memory e) false 0 (m_writeAddress e)
  else mk (m_memory e) (m_writeInProgress e) count (m_writeAddress e).

Definition Write (data : list Z) : Bus t I2CStatus :=
  fun e =>
    let len := Z.of_nat (List.length data) in
    if m_writeInProgress e then (Nack, busy_step e)
    else if len <? 2 then (Nack, e)
    else
      let addr := Int.to_uint16 (Z.lor (Z.shiftl (nth 0 data 0) 8) (nth 1 data 0)) in
      if 2 <? len then
        let writeLen := len - 2 in
        if CAPACITY <? addr + writeLen then (Nack, e)
        else (OK, mk (store_bytes (m_memory e) addr (skipn 2 data)) true 0 addr)
      else (OK, e).

Definition Read (txData rxBuffer : list Z) : Bus t (I2CStatus * list Z) :=
  fun e =>
    let txLen := Z.of_nat (List.length txData) in
    let rxLen := Z.of_nat (List.length rxBuffer) in
    if m_writeInProgress e then ((Nack, rxBuffer), busy_step e)
    else if txLen <? 2 then ((Nack, rxBuffer), e)
    else
      let addr :=
        Int.to_uint16 (Z.lor (Z.shiftl (nth 0 txData 0) 8) (nth 1 txData 0)) in
      if CAPACITY <? addr + rxLen then ((Nack, rxBuffer), e)
      else ((OK, load_bytes (m_memory e) addr rxBuffer), e).

Definition Reset (e : t) : t := create.

End MockEEPROM.

(* ================================================================== *)
(** ** [MockI2C.hpp]: the controller used by [main] *)

Module MockI2C.

Record t : Type := mk { m_eeprom : MockEEPROM.t }.

Definition create : t := mk MockEEPROM.create.

(** Runs an operation of the EEPROM mock on the member [m_eeprom]. *)
Definition on_eeprom {A : Type} (m : Bus MockEEPROM.t A) : Bus t A :=
  fun b => let (a, e') := m (m_eeprom b) in (a, mk e').

Definition Write (addr : Z) (data : list Z) : Bus t I2CStatus :=
  if addr =? 80 then on_eeprom (MockEEPROM.Write data)
  else if addr =? 72 then ret Nack
  else ret Nack.

Definition Read (addr : Z) (buffer : list Z) : Bus t (I2CStatus * list Z) :=
  if addr =? 80 then ret (Nack, buffer)
  else if addr =? 72 then ret (Nack, map (fun _ => 0) buffer)
  else ret (Nack, buffer).

Definition WriteRead (addr : Z) (tx rx : list Z) : Bus t (I2CStatus * list Z) :=
  if addr =? 80 then on_eeprom (MockEEPROM.Read tx rx)
  else if addr =? 72 then ret (Nack, map (fun _ => 0) rx)
  else ret (Nack, rx).

#[global] Instance controller : II2CController t :=
  Build_II2CController t Write Read WriteRead.

End MockI2C.

(* ================================================================== *)
(** ** [ITimer.hpp]: the timer interface *)

Module ITimer.

(** [class ITimer]: [Init] and the [const] method [GetElapsedSeconds]. *)
Class t (T : Type) : Type := {
  Init : T -> T;
  GetElapsedSeconds : T -> Z
}.

End ITimer.

(* ================================================================== *)
(** ** [MockTimer.hpp] *)

Module MockTimer.

Record t : Type := mk { m_tickCount : Z }.

Definition create : t := mk 0.
Definition Init (tm : t) : t := mk 0.
Definition GetElapsedSeconds (tm : t) : Z := m_tickCount tm.
Definition Tick (tm : t) : t := mk (Int.to_uint32 (m_tickCount tm + 1)).
Definition AdvanceTime (seconds : Z) (tm : t) : t :=
  mk (Int.to_uint32 (m_tickCount tm + seconds)).
Definition Reset (tm : t) : t := mk 0.

#[global] Instance timer : ITimer.t t := ITimer.Build_t t Init GetElapsedSeconds.

End MockTimer.

(* ================================================================== *)
(** ** [main.cpp]: the logging loop *)

Module Main.

(** The global variables ([volatile], for inspection in a debugger). *)
Record Globals : Type := mkGlobals {
  g_sampleCount : Z;
  g_lastTemperature : Float32.float32;
  g_eepromAddress : Z;
  g_initSuccess : bool;
  g_readSuccess : bool;
  g_writeSuccess : bool;
  g_lastEncoded : Z;
  g_status : String.string
}.

(** The locals of [main] that live across the loop, and the globals.  [main]
    declares [MockI2C i2cBus]; the model takes any controller [B], of which
    [MockI2C.t] is one. *)
Record State (B : Type) : Type := mkState {
  i2cBus : B;
  timer : MockTimer.t;
  tempSensor : TMP100.t;
  dataLogger : EEPROM24FC256.t;
  eepromAddress : Z;
  lastLogTime : Z;
  globals : Globals
}.
Arguments mkState {B} _ _ _ _ _ _ _.
Arguments i2cBus {B} _.
Arguments timer {B} _.
Arguments tempSensor {B} _.
Arguments dataLogger {B} _.
Arguments eepromAddress {B} _.
Arguments lastLogTime {B} _.
Arguments globals {B} _.

Section Loop.
Context {B : Type} `{II2CController B}.

(** [main] up to the [while] loop. *)
Definition startup (bus : B) : State B :=
  let timer := MockTimer.Init MockTimer.create in
  let tempSensor := TMP100.create 72 in
  let dataLogger := EEPROM24FC256.mk 80 in
  let '((initSuccess, tempSensor), bus) := TMP100.Init tempSensor bus in
  mkState bus timer tempSensor dataLogger 0 0
    (mkGlobals 0 (S754_zero false) 0 initSuccess false false 0
               "Entering main loop"%string).

(** The test [currentTime - lastLogTime >= 600], in [uint32_t] arithmetic. *)
Definition interval_elapsed (currentTime lastLogTime : Z) : bool :=
  600 <=? Int.to_uint32 (currentTime - lastLogTime).

(** The body of the [if]: one capture - encode - store - advance cycle. *)
Definition log_cycle (currentTime : Z) (st : State B) : State B :=
  let g := globals st in
  let (temperature, bus) := TMP100.ReadTemperature (tempSensor st) (i2cBus st) in
  let readFailed := Float32.ltb temperature Float32.fm900_0 in
  let temperature :=
    if readFailed
    then Float32.add Float32.f20_0
           (Float32.mul (Float32.of_Z (g_sampleCount g)) Float32.f0_01)
    else temperature in
  let encoded := Float32.to_int16 (Float32.mul temperature Float32.f16_0) in
  let (writeSuccess, bus) :=
    EEPROM24FC256.LogData (dataLogger st) (eepromAddress st) temperature bus in
  let eepromAddress := Int.to_uint16 (eepromAddress st + 2) in
  let eepromAddress := if 32766 <=? eepromAddress then 0 else eepromAddress in
  mkState bus (MockTimer.AdvanceTime 600 (timer st))
    (tempSensor st) (dataLogger st) eepromAddress currentTime
    (mkGlobals (Int.to_uint32 (g_sampleCount g + 1)) temperature eepromAddress
               (g_initSuccess g) (negb readFailed) writeSuccess encoded
               "Incrementing counter"%string).

(** One iteration of the [while] body. *)
Definition loop_iteration (st : State B) : State B :=
  let currentTime := MockTimer.GetElapsedSeconds (timer st) in
  if interval_elapsed currentTime (lastLogTime st)
  then log_cycle currentTime st
  else st.

(** [while (g_sampleCount < 16384) { ... }], for at most [fuel] iterations. *)
Fixpoint main_loop (fuel : nat) (st : State B) : State B :=
  match fuel with
  | O => st
  | S n =>
      if g_sampleCount (globals st) <? 16384
      then main_loop n (loop_iteration st)
      else st
  end.

End Loop.

End Main.

(* ================================================================== *)
(** * Vocabulary of the properties *)

(** ** The storage driver *)

(** The two rejections of the write path, in the words of the specification:
    the sample would end past the capacity; the sample's page and the page of
    the address that follows it differ, and the sample ends before the end of
    the store. *)
Definition spec_exceeds_capacity (memAddr : Z) : Prop :=
  memAddr + 2 > EEPROM24FC256.CAPACITY.

Definition spec_crosses_page_mid_store (memAddr : Z) : Prop :=
  memAddr / EEPROM24FC256.PAGE_SIZE <> (memAddr + 2) / EEPROM24FC256.PAGE_SIZE
  /\ memAddr + 2 < EEPROM24FC256.CAPACITY.

(** A zero-length write to the device, answered by [st]. *)
Definition probe (dev : EEPROM24FC256.t) (st : I2CStatus) : BusCall * I2CStatus :=
  (CallWrite (EEPROM24FC256.m_address dev) [], st).

(** The transaction [ReadData] performs for an address in bounds. *)
Definition read_transaction {B : Type} `{II2CController B}
    (dev : EEPROM24FC256.t) (memAddr : Z) : Bus B (I2CStatus * list Z) :=
  WriteRead (EEPROM24FC256.m_address dev)
    [Int.high_byte memAddr; Int.low_byte memAddr] [0; 0].

(** ** The codec *)

(** The range of the TMP100 sensor ([TMP100.hpp]: -55 to +125 deg C). *)
Definition sensor_min : Float32.float32 := Eval vm_compute in Float32.of_Z (-55).
Definition sensor_max : Float32.float32 := Eval vm_compute in Float32.of_Z 125.

(** The integer part of a rational, toward zero. *)
Definition Qtruncate (q : Q) : Z := Z.quot (Qnum q) (Zpos (Qden q)).

(** Decoding divides by 16 exactly: every [int16_t] over 16 is a binary32
    number.  Checked on each of the 65536 values, by halving the range. *)
Definition decode_exact_at (z : Z) : bool :=
  Qeq_bool (Float32.to_Q (EEPROM24FC256.DecodeTemperature z)) (z # 16).

Fixpoint holds_on_block (P : Z -> bool) (k : nat) (lo : Z) : bool :=
  match k with
  | O => P lo
  | S k' => holds_on_block P k' lo && holds_on_block P k' (lo + 2 ^ Z.of_nat k')
  end.

(** ** The logging loop *)

(** The time source as its environment drives it: the elapsed-seconds counter
    now reads [t]. *)
Definition set_time {B : Type} (t : Z) (st : Main.State B) : Main.State B :=
  Main.mkState (Main.i2cBus st) (MockTimer.mk t) (Main.tempSensor st)
    (Main.dataLogger st) (Main.eepromAddress st) (Main.lastLogTime st)
    (Main.globals st).

(** Whether an iteration performed a log cycle, observed on the sample
    counter. *)
Definition logged {B : Type} (before after : Main.State B) : bool :=
  negb (Main.g_sampleCount (Main.globals after)
        =? Main.g_sampleCount (Main.globals before)).

(** Runs one loop iteration per read of the time source, the reads returning
    the given values in turn; returns the reads at which a log event was
    triggered. *)
Fixpoint run_reads {B : Type} `{II2CController B}
    (reads : list Z) (st : Main.State B) : list Z * Main.State B :=
  match reads with
  | [] => ([], st)
  | t :: rest =>
      let st' := Main.loop_iteration (set_time t st) in
      let (events, final) := run_reads rest st' in
      (if logged st st' then t :: events else events, final)
  end.

(** The states the loop can be in: the state at loop entry, then any number of
    iterations of the [while] loop, the time source taking any value in
    between. *)
Inductive reachable {B : Type} `{II2CController B} (bus0 : B) :
  Main.State B -> Prop :=
| reach_startup : reachable bus0 (Main.startup bus0)
| reach_time : forall st t, reachable bus0 st -> reachable bus0 (set_time t st)
| reach_iteration : forall st,
    reachable bus0 st ->
    Main.g_sampleCount (Main.globals st) < 16384 ->
    reachable bus0 (Main.loop_iteration st).

(** The cursor after a cycle, for a cursor that is a sample slot. *)
Definition next_cursor (cursor : Z) : Z :=
  if cursor + 2 >=? EEPROM24FC256.CAPACITY - 2 then 0 else cursor + 2.

Definition cursor_ok (cursor : Z) : Prop :=
  Z.even cursor = true /\ 0 <= cursor <= EEPROM24FC256.CAPACITY - 4.

(** The reads of the time source at which a log event is triggered, as the
    interval test alone decides them. *)
Fixpoint trigger_times (reads : list Z) (lastLogTime : Z) : list Z :=
  match reads with
  | [] => []
  | t :: rest =>
      if Main.interval_elapsed t lastLogTime
      then t :: trigger_times rest t
      else trigger_times rest lastLogTime
  end.

(** The reads of a time source that starts at 0 and advances by 60 s from one
    read to the next, up to 7200 s. *)
Definition reads_every_60s : list Z := map (fun k => 60 * Z.of_nat k) (seq 0 121).

(** ** Concrete data for the examples *)

(** The EEPROM driver of [main], at bus address 0x50. *)
Definition eeprom_0x50 : EEPROM24FC256.t := EEPROM24FC256.mk 80.

(** 22.5f, which encodes to 360. *)
Definition temp_22_5 : Float32.float32 :=
  Eval vm_compute in Float32.div (Float32.of_Z 45) (Float32.of_Z 2).

(** A fresh [MockI2C] with an empty transaction record. *)
Definition fresh_mock : Traced MockI2C.t := mkTraced MockI2C.create [].

(** A [MockI2C] right after a data write: its write cycle is in progress. *)
Definition mock_busy : Traced MockI2C.t :=
  snd (Write 80 [0; 0; 1; 104] fresh_mock).

(** The [MockI2C] after [LogData] stored -999.0f at address 0 (the 100 probes
    of that call have ended the mock's write cycle). *)
Definition mock_holding_sentinel : MockI2C.t :=
  snd (EEPROM24FC256.LogData eeprom_0x50 0 Float32.fm999_0 MockI2C.create).

(** [main] on its [MockI2C], the time source being driven by hand. *)
Definition mock_startup : Main.State MockI2C.t := Main.startup MockI2C.create.

(** The state after the first log cycle, at 600 s. *)
Definition mock_after_first_cycle : Main.State MockI2C.t :=
  Main.loop_iteration (set_time 600 mock_startup).

(** ** Further vocabulary *)

(** Re-encoding a decoded sample gives the sample back. *)
Definition reencode_ok (z : Z) : bool :=
  EEPROM24FC256.EncodeTemperature (EEPROM24FC256.DecodeTemperature z) =? z.

(** How a poll ends: acknowledged at some attempt, every earlier attempt
    having failed, or all [n] attempts used without an acknowledgement. *)
Definition poll_outcome (n : nat) (sts : list I2CStatus) : Prop :=
  (exists pre : list I2CStatus,
      sts = pre ++ [OK] /\ Forall (fun st => st <> OK) pre
      /\ (List.length pre < n)%nat)
  \/ (List.length sts = n /\ Forall (fun st => st <> OK) sts).

(** The transaction [TMP100::ReadTemperature] performs. *)
Definition sensor_transaction {B : Type} `{II2CController B}
    (dev : TMP100.t) : Bus B (I2CStatus * list Z) :=
  WriteRead (TMP100.m_address dev) [TMP100.REG_TEMPERATURE] [0; 0].

(** The signed 12-bit reading in the two bytes of the temperature register:
    the 16-bit big-endian word, shifted right by four, sign kept. *)
Definition raw12 (rawData : list Z) : Z :=
  Z.shiftr (Int.to_int16 (Z.lor (Z.shiftl (nth 0 rawData 0) 8) (nth 1 rawData 0))) 4.

(** The temperature [ReadTemperature] computes from a 12-bit reading. *)
Definition sensor_value (r : Z) : Float32.float32 :=
  Float32.mul (Float32.of_Z r) Float32.f1_16.

(** For one 12-bit reading: the temperature is the reading over 16, it is not
    below -900, and sixteen times it truncates back to the reading. *)
Definition sensor_value_ok (r : Z) : bool :=
  Qeq_bool (Float32.to_Q (sensor_value r)) (r # 16)
  && negb (Float32.ltb (sensor_value r) Float32.fm900_0)
  && (Float32.trunc (Float32.mul (sensor_value r) Float32.f16_0) =? r).

(** The value [main] logs when the sensor read failed:
    [20.0f + (float)(g_sampleCount * 0.01f)]. *)
Definition placeholder (sampleCount : Z) : Float32.float32 :=
  Float32.add Float32.f20_0 (Float32.mul (Float32.of_Z sampleCount) Float32.f0_01).

(** For one sample count: sixteen times the placeholder truncates to a value
    between 320 and 2941. *)
Definition placeholder_ok (c : Z) : bool :=
  let e := Float32.trunc (Float32.mul (placeholder c) Float32.f16_0) in
  (320 <=? e) && (e <=? 2941).

(** [n] accesses to a busy EEPROM mock. *)
Fixpoint busy_steps (n : nat) (e : MockEEPROM.t) : MockEEPROM.t :=
  match n with
  | O => e
  | S k => busy_steps k (MockEEPROM.busy_step e)
  end.

(** [n] calls of [MockTimer::Tick]. *)
Fixpoint ticks (n : nat) (tm : MockTimer.t) : MockTimer.t :=
  match n with
  | O => tm
  | S k => ticks k (MockTimer.Tick tm)
  end.

(** A controller for the examples that answers every operation with [OK]
    and delivers the bytes [hi], [lo] on every read; it has no state. *)
Definition stub_bus (hi lo : Z) : II2CController unit :=
  Build_II2CController unit
    (fun _ _ => ret OK)
    (fun _ _ => ret (OK, [hi; lo]))
    (fun _ _ _ => ret (OK, [hi; lo])).

(** Reads of a time source that never goes backwards, none before [lo], all
    of them [uint32_t]. *)
Fixpoint nondecreasing_from (lo : Z) (reads : list Z) : Prop :=
  match reads with
  | [] => True
  | t :: rest => lo <= t < 4294967296 /\ nondecreasing_from t rest
  end.

(** Events that are at least 600 s apart, the first one at least 600 s after
    [last]. *)
Fixpoint spaced_from (last : Z) (events : list Z) : Prop :=
  match events with
  | [] => True
  | t :: rest => last + 600 <= t /\ spaced_from t rest
  end.

(* ================================================================== *)
(** * Properties *)

(** ** Status codes *)

Lemma I2CStatus_eqb_eq (a b : I2CStatus) : I2CStatus_eqb a b = true <-> a = b.
Proof. destruct a, b; simpl; split; intro H; try reflexivity; discriminate H. Qed.

Lemma I2CStatus_eqb_neq (a b : I2CStatus) : I2CStatus_eqb a b = false <-> a <> b.
Proof.
  destruct a, b; simpl; split; intro H; try reflexivity; try discriminate H;
    try (intro E; discriminate E); exfalso; apply H; reflexivity.
Qed.

(** ** Fixed-width arithmetic *)

Lemma to_uint32_small (z : Z) : 0 <= z < 4294967296 -> Int.to_uint32 z = z.
Proof. intro Hz. unfold Int.to_uint32. apply Z.mod_small. exact Hz. Qed.

Lemma to_uint16_small (z : Z) : 0 <= z < 65536 -> Int.to_uint16 z = z.
Proof. intro Hz. unfold Int.to_uint16. apply Z.mod_small. exact Hz. Qed.

Lemma to_int16_small (z : Z) : -32768 <= z < 32768 -> Int.to_int16 z = z.
Proof. intro Hz. unfold Int.to_int16. rewrite Z.mod_small; lia. Qed.

Lemma to_int16_range (z : Z) : Int.is_int16 (Int.to_int16 z).
Proof.
  unfold Int.is_int16, Int.to_int16.
  pose proof (Z.mod_pos_bound (z + 32768) 65536 ltac:(lia)). lia.
Qed.

Lemma land_255 (x : Z) : Z.land x 255 = x mod 256.
Proof. change 255 with (Z.ones 8). rewrite Z.land_ones by lia. reflexivity. Qed.

Lemma high_byte_spec (x : Z) : Int.high_byte x = (x / 256) mod 256.
Proof.
  unfold Int.high_byte, Int.to_uint8.
  rewrite land_255, Z.shiftr_div_pow2 by lia.
  change (2 ^ 8) with 256. apply Z.mod_mod. lia.
Qed.

Lemma low_byte_spec (x : Z) : Int.low_byte x = x mod 256.
Proof.
  unfold Int.low_byte, Int.to_uint8. rewrite land_255. apply Z.mod_mod. lia.
Qed.

Lemma high_byte_range (x : Z) : Int.is_uint8 (Int.high_byte x).
Proof. rewrite high_byte_spec. apply Z.mod_pos_bound. lia. Qed.

Lemma low_byte_range (x : Z) : Int.is_uint8 (Int.low_byte x).
Proof. rewrite low_byte_spec. apply Z.mod_pos_bound. lia. Qed.

(** The two bytes are the big-endian representation: of an unsigned 16-bit
    quantity directly, of a signed one in two's complement. *)
Lemma bytes_of_uint16 (x : Z) :
  Int.is_uint16 x -> 256 * Int.high_byte x + Int.low_byte x = x.
Proof.
  intros [Hlo Hhi]. rewrite high_byte_spec, low_byte_spec.
  rewrite (Z.mod_small (x / 256)).
  - pose proof (Z.div_mod x 256 ltac:(lia)). lia.
  - split; [apply Z.div_pos; lia | apply Z.div_lt_upper_bound; lia].
Qed.

Lemma bytes_of_int16 (x : Z) :
  Int.is_int16 x -> Int.to_int16 (256 * Int.high_byte x + Int.low_byte x) = x.
Proof.
  intros [Hlo Hhi]. rewrite high_byte_spec, low_byte_spec.
  unfold Int.to_int16.
  pose proof (Z.div_mod x 256 ltac:(lia)) as Hx.
  pose proof (Z.mod_pos_bound x 256 ltac:(lia)) as Hr.
  pose proof (Z.div_mod (x / 256) 256 ltac:(lia)) as Hq.
  pose proof (Z.mod_pos_bound (x / 256) 256 ltac:(lia)) as Hqr.
  assert (Hk : 256 * ((x / 256) mod 256) + x mod 256 = x - 65536 * (x / 256 / 256))
    by lia.
  rewrite Hk.
  assert (Hd : -1 <= x / 256 / 256 <= 0).
  { assert (-128 <= x / 256 < 128) by lia.
    pose proof (Z.mod_pos_bound (x / 256) 256 ltac:(lia)). lia. }
  replace (x - 65536 * (x / 256 / 256) + 32768)
    with (x + 32768 + (- (x / 256 / 256)) * 65536) by lia.
  rewrite Z.mod_add by lia. rewrite Z.mod_small; lia.
Qed.

(** [(hi << 8) | lo] is [256 * hi + lo] on bytes. *)
Lemma lor_shiftl_bytes (hi lo : Z) :
  Int.is_uint8 lo -> Z.lor (Z.shiftl hi 8) lo = 256 * hi + lo.
Proof.
  intros Hlo.
  rewrite Z.shiftl_mul_pow2 by lia.
  assert (Hland : Z.land (hi * 2 ^ 8) lo = 0).
  { apply Z.bits_inj'; intros n Hn. rewrite Z.land_spec, Z.bits_0.
    destruct (Z.ltb_spec n 8).
    - rewrite Z.mul_pow2_bits_low by lia. reflexivity.
    - rewrite <- (Z.mod_small lo (2 ^ 8)) by exact Hlo.
      rewrite Z.mod_pow2_bits_high by lia. apply andb_false_r. }
  rewrite <- Z.lxor_lor by exact Hland.
  rewrite <- Z.add_nocarry_lxor by exact Hland.
  change (2 ^ 8) with 256. lia.
Qed.

(** ** The controller interface *)

Section ControllerFacts.
Context {B : Type} `{II2CController B}.

Lemma traced_Write (addr : Z) (data : list Z) (tb : Traced B) :
  Write addr data tb =
  (fst (Write addr data (inner tb)),
   mkTraced (snd (Write addr data (inner tb)))
            (calls tb ++ [(CallWrite addr data, fst (Write addr data (inner tb)))])).
Proof.
  simpl. unfold traced_call. destruct (Write addr data (inner tb)); reflexivity.
Qed.


End ControllerFacts.

(** C10.  The default [WriteRead] (a [Write], then a [Read]) answers [Error]
    whenever its write phase answers anything but [OK]: the write phase's own
    status ([Nack], [Timeout], [Error]) is not passed on, the receive buffer
    is left as it was and no read is attempted.  When the write phase answers
    [OK], the result is that of the read phase, its status unchanged. *)
Theorem default_WriteRead_masks_write_status
    {B : Type}
    (write : Z -> list Z -> Bus B I2CStatus)
    (read : Z -> list Z -> Bus B (I2CStatus * list Z))
    (addr : Z) (tx rx : list Z) (b : B) :
  (fst (write addr tx b) <> OK ->
     default_WriteRead write read addr tx rx b = ((Error, rx), snd (write addr tx b)))
  /\ (fst (write addr tx b) = OK ->
     default_WriteRead write read addr tx rx b = read addr rx (snd (write addr tx b))).
Proof.
  unfold default_WriteRead, bind, ret.
  destruct (write addr tx b) as [st b']; simpl.
  split; intro Hst.
  - apply I2CStatus_eqb_neq in Hst. rewrite Hst. reflexivity.
  - subst st. reflexivity.
Qed.

(** A controller that takes [MockI2C]'s [Write] and [Read] and inherits the
    default [WriteRead]: at the sensor address 0x48 the write phase answers
    [Nack], and the combined transaction answers [Error]. *)
Lemma default_WriteRead_masks_write_status_witness :
  fst (MockI2C.Write 72 [0] MockI2C.create) = Nack
  /\ default_WriteRead MockI2C.Write MockI2C.Read 72 [0] [0; 0] MockI2C.create
     = ((Error, [0; 0]), MockI2C.create).
Proof.
  split; [reflexivity |].
  apply (proj1 (default_WriteRead_masks_write_status
                  MockI2C.Write MockI2C.Read 72 [0] [0; 0] MockI2C.create)).
  discriminate.
Defined.

(** ** The storage driver: [LogData] *)

Section StoreWrites.
Context {B : Type} `{II2CController B}.
Variable dev : EEPROM24FC256.t.

Lemma LogData_exceeds_capacity (memAddr : Z) (temp : Float32.float32) (b : B) :
  Int.is_uint16 memAddr -> spec_exceeds_capacity memAddr ->
  EEPROM24FC256.LogData dev memAddr temp b = (false, b).
Proof.
  unfold Int.is_uint16, spec_exceeds_capacity, EEPROM24FC256.CAPACITY.
  intros Hu Hc. unfold EEPROM24FC256.LogData, EEPROM24FC256.CAPACITY.
  rewrite to_uint32_small by lia.
  destruct (Z.ltb_spec 32768 (memAddr + 2)); [reflexivity | lia].
Qed.

Lemma LogData_crosses_page (memAddr : Z) (temp : Float32.float32) (b : B) :
  Int.is_uint16 memAddr -> spec_crosses_page_mid_store memAddr ->
  EEPROM24FC256.LogData dev memAddr temp b = (false, b).
Proof.
  unfold Int.is_uint16, spec_crosses_page_mid_store,
    EEPROM24FC256.CAPACITY, EEPROM24FC256.PAGE_SIZE.
  intros Hu [Hp Hc]. unfold EEPROM24FC256.LogData,
    EEPROM24FC256.CAPACITY, EEPROM24FC256.PAGE_SIZE.
  rewrite to_uint32_small by lia.
  destruct (Z.ltb_spec 32768 (memAddr + 2)); [reflexivity |].
  rewrite (to_uint16_small (memAddr + 2)) by lia.
  assert (0 <= memAddr / 64 < 65536)
    by (split; [apply Z.div_pos; lia | apply Z.div_lt_upper_bound; lia]).
  assert (0 <= (memAddr + 2) / 64 < 65536)
    by (split; [apply Z.div_pos; lia | apply Z.div_lt_upper_bound; lia]).
  rewrite !to_uint16_small by lia.
  destruct (Z.eqb_spec (memAddr / 64) ((memAddr + 2) / 64)); [contradiction |].
  destruct (Z.ltb_spec (memAddr + 2) 32768); [reflexivity | lia].
Qed.

(** An address that passes both checks: the payload is written, the result is
    decided by the status of that write alone, and the poll follows a
    successful write. *)
Lemma LogData_accepted (memAddr : Z) (temp : Float32.float32) (b : B) :
  Int.is_uint16 memAddr ->
  ~ spec_exceeds_capacity memAddr -> ~ spec_crosses_page_mid_store memAddr ->
  EEPROM24FC256.LogData dev memAddr temp b =
  let data := EEPROM24FC256.payload memAddr (EEPROM24FC256.EncodeTemperature temp) in
  let r := Write (EEPROM24FC256.m_address dev) data b in
  if I2CStatus_eqb (fst r) OK
  then (true, snd (EEPROM24FC256.WaitForWriteComplete dev (snd r)))
  else (false, snd r).
Proof.
  unfold Int.is_uint16, spec_crosses_page_mid_store, spec_exceeds_capacity,
    EEPROM24FC256.CAPACITY, EEPROM24FC256.PAGE_SIZE.
  intros Hu Hc Hp. unfold EEPROM24FC256.LogData,
    EEPROM24FC256.CAPACITY, EEPROM24FC256.PAGE_SIZE.
  rewrite to_uint32_small by lia.
  destruct (Z.ltb_spec 32768 (memAddr + 2)); [lia |].
  rewrite (to_uint16_small (memAddr + 2)) by lia.
  assert (0 <= memAddr / 64 < 65536)
    by (split; [apply Z.div_pos; lia | apply Z.div_lt_upper_bound; lia]).
  assert (0 <= (memAddr + 2) / 64 < 65536)
    by (split; [apply Z.div_pos; lia | apply Z.div_lt_upper_bound; lia]).
  rewrite !to_uint16_small by lia.
  assert (Hchk : negb (memAddr / 64 =? (memAddr + 2) / 64) && (memAddr + 2 <? 32768)
                 = false).
  { destruct (Z.eqb_spec (memAddr / 64) ((memAddr + 2) / 64)); [reflexivity |].
    destruct (Z.ltb_spec (memAddr + 2) 32768); [| reflexivity].
    exfalso. apply Hp. split; assumption. }
  rewrite Hchk. unfold bind, ret. cbv zeta.
  destruct (Write _ _ b) as [st b1]. simpl fst. simpl snd.
  destruct (I2CStatus_eqb st OK); simpl; [| reflexivity].
  destruct (EEPROM24FC256.WaitForWriteComplete dev b1); reflexivity.
Qed.

(** The poll issues zero-length writes to the device and nothing else, at most
    as many as it is given attempts. *)
Lemma poll_calls (n : nat) (tb : Traced B) :
  exists sts : list I2CStatus,
    (List.length sts <= n)%nat
    /\ calls (snd (EEPROM24FC256.poll dev n tb)) = calls tb ++ map (probe dev) sts.
Proof.
  revert tb. induction n as [| n IH]; intro tb.
  - exists []. simpl. rewrite app_nil_r. split; [lia | reflexivity].
  - cbn [EEPROM24FC256.poll]. unfold bind. rewrite traced_Write.
    destruct (I2CStatus_eqb (fst (Write (EEPROM24FC256.m_address dev) [] (inner tb))) OK)
      eqn:Hst.
    + exists [fst (Write (EEPROM24FC256.m_address dev) [] (inner tb))].
      simpl. split; [lia | reflexivity].
    + destruct (IH (mkTraced (snd (Write (EEPROM24FC256.m_address dev) [] (inner tb)))
                      (calls tb ++ [(CallWrite (EEPROM24FC256.m_address dev) [],
                                     fst (Write (EEPROM24FC256.m_address dev) []
                                            (inner tb)))])))
        as [sts [Hlen Hcalls]].
      exists (fst (Write (EEPROM24FC256.m_address dev) [] (inner tb)) :: sts).
      split; [simpl; lia |].
      rewrite Hcalls. simpl calls. rewrite <- app_assoc. reflexivity.
Qed.

(** When no probe is acknowledged, the poll uses up all its attempts. *)
Lemma poll_exhausted (n : nat) (tb : Traced B) :
  (forall b' : B, fst (Write (EEPROM24FC256.m_address dev) [] b') <> OK) ->
  exists sts : list I2CStatus,
    List.length sts = n
    /\ Forall (fun st => st <> OK) sts
    /\ calls (snd (EEPROM24FC256.poll dev n tb)) = calls tb ++ map (probe dev) sts.
Proof.
  intro Hbusy. revert tb. induction n as [| n IH]; intro tb.
  - exists []. simpl. rewrite app_nil_r. repeat split. constructor.
  - cbn [EEPROM24FC256.poll]. unfold bind. rewrite traced_Write.
    pose proof (Hbusy (inner tb)) as Hst. apply I2CStatus_eqb_neq in Hst.
    simpl fst at 1. rewrite Hst.
    destruct (IH (mkTraced (snd (Write (EEPROM24FC256.m_address dev) [] (inner tb)))
                    (calls tb ++ [(CallWrite (EEPROM24FC256.m_address dev) [],
                                   fst (Write (EEPROM24FC256.m_address dev) []
                                          (inner tb)))])))
      as [sts [Hlen [Hall Hcalls]]].
    exists (fst (Write (EEPROM24FC256.m_address dev) [] (inner tb)) :: sts).
    split; [simpl; lia |]. split.
    + constructor; [apply I2CStatus_eqb_neq; exact Hst | exact Hall].
    + rewrite Hcalls. simpl calls. rewrite <- app_assoc. reflexivity.
Qed.

End StoreWrites.

(** The EEPROM mock answers a zero-length write with [Nack] in every state:
    while busy it does not acknowledge, and otherwise it wants two address
    bytes. *)
Lemma MockI2C_probe_never_acknowledged (b : MockI2C.t) :
  fst (Write 80 [] b) <> OK.
Proof.
  simpl. unfold MockI2C.Write, MockI2C.on_eeprom, MockEEPROM.Write. simpl.
  destruct (MockEEPROM.m_writeInProgress (MockI2C.m_eeprom b)); simpl; discriminate.
Qed.

(** C1.  For an address within the capacity and not crossing a page
    mid-store, and any value: when the 4-byte data write is answered [OK],
    [LogData] returns [true], whatever the completion poll observes.  In
    particular, when no zero-length probe is ever acknowledged, the bus sees
    the data write followed by exactly 100 probes, none answered [OK], and the
    result is still [true]. *)
Theorem LogData_success_despite_poll_exhaustion
    {B : Type} `{II2CController B}
    (dev : EEPROM24FC256.t) (memAddr : Z) (temp : Float32.float32) (b : B) :
  Int.is_uint16 memAddr ->
  ~ spec_exceeds_capacity memAddr ->
  ~ spec_crosses_page_mid_store memAddr ->
  fst (Write (EEPROM24FC256.m_address dev)
         (EEPROM24FC256.payload memAddr (EEPROM24FC256.EncodeTemperature temp)) b) = OK ->
  fst (EEPROM24FC256.LogData dev memAddr temp b) = true
  /\ ((forall b' : B, fst (Write (EEPROM24FC256.m_address dev) [] b') <> OK) ->
      forall log : list (BusCall * I2CStatus),
      exists sts : list I2CStatus,
        List.length sts = 100%nat
        /\ Forall (fun st => st <> OK) sts
        /\ fst (EEPROM24FC256.LogData dev memAddr temp (mkTraced b log)) = true
        /\ calls (snd (EEPROM24FC256.LogData dev memAddr temp (mkTraced b log))) =
           log ++ (CallWrite (EEPROM24FC256.m_address dev)
                     (EEPROM24FC256.payload memAddr
                        (EEPROM24FC256.EncodeTemperature temp)), OK)
               :: map (probe dev) sts).
Proof.
  intros Hu Hc Hp Hok. split.
  - rewrite LogData_accepted by assumption. cbv zeta. rewrite Hok. reflexivity.
  - intros Hbusy log.
    rewrite (LogData_accepted dev memAddr temp (mkTraced b log)) by assumption.
    cbv zeta. rewrite traced_Write. simpl inner. simpl fst at 1. rewrite Hok.
    simpl I2CStatus_eqb. cbv iota.
    unfold EEPROM24FC256.WaitForWriteComplete.
    destruct (poll_exhausted dev EEPROM24FC256.maxAttempts
                (snd (Write (EEPROM24FC256.m_address dev)
                        (EEPROM24FC256.payload memAddr
                           (EEPROM24FC256.EncodeTemperature temp)) (mkTraced b log)))
                Hbusy) as [sts [Hlen [Hall Hcalls]]].
    exists sts. split; [exact Hlen |]. split; [exact Hall |]. split; [reflexivity |].
    rewrite traced_Write in Hcalls. simpl inner in Hcalls. simpl snd in Hcalls.
    simpl snd. rewrite Hok in Hcalls. rewrite Hcalls. simpl calls.
    rewrite <- app_assoc. reflexivity.
Qed.

(** On the repository's own [MockI2C]: the data write at address 0 is
    accepted, none of the 100 probes is acknowledged, [LogData] is [true]. *)
Lemma LogData_success_despite_poll_exhaustion_witness :
  (Int.is_uint16 0 /\ ~ spec_exceeds_capacity 0 /\ ~ spec_crosses_page_mid_store 0
   /\ fst (Write 80 (EEPROM24FC256.payload 0 (EEPROM24FC256.EncodeTemperature temp_22_5))
             MockI2C.create) = OK)
  /\ fst (EEPROM24FC256.LogData eeprom_0x50 0 temp_22_5 MockI2C.create) = true
  /\ exists sts : list I2CStatus,
        List.length sts = 100%nat
        /\ Forall (fun st => st <> OK) sts
        /\ fst (EEPROM24FC256.LogData eeprom_0x50 0 temp_22_5 fresh_mock) = true
        /\ calls (snd (EEPROM24FC256.LogData eeprom_0x50 0 temp_22_5 fresh_mock)) =
           (CallWrite 80 [0; 0; 1; 104], OK) :: map (probe eeprom_0x50) sts.
Proof.
  assert (Hu : Int.is_uint16 0) by (unfold Int.is_uint16; lia).
  assert (Hc : ~ spec_exceeds_capacity 0)
    by (unfold spec_exceeds_capacity, EEPROM24FC256.CAPACITY; lia).
  assert (Hp : ~ spec_crosses_page_mid_store 0)
    by (intros [Hne _]; apply Hne; reflexivity).
  assert (Hok : fst (Write 80 (EEPROM24FC256.payload 0
                                 (EEPROM24FC256.EncodeTemperature temp_22_5))
                       MockI2C.create) = OK) by reflexivity.
  destruct (LogData_success_despite_poll_exhaustion eeprom_0x50 0 temp_22_5
              MockI2C.create Hu Hc Hp Hok) as [Htrue Hexh].
  split; [exact (conj Hu (conj Hc (conj Hp Hok))) |]. split; [exact Htrue |].
  exact (Hexh MockI2C_probe_never_acknowledged []).
Defined.

Lemma spec_crosses_page_mid_store_dec (memAddr : Z) :
  {spec_crosses_page_mid_store memAddr} + {~ spec_crosses_page_mid_store memAddr}.
Proof.
  unfold spec_crosses_page_mid_store.
  destruct (Z.eq_dec (memAddr / EEPROM24FC256.PAGE_SIZE)
                     ((memAddr + 2) / EEPROM24FC256.PAGE_SIZE)) as [He | Hne].
  - right. intros [Hne _]. exact (Hne He).
  - destruct (Z_lt_dec (memAddr + 2) EEPROM24FC256.CAPACITY) as [Hlt | Hge].
    + left. split; assumption.
    + right. intros [_ Hlt]. exact (Hge Hlt).
Defined.

(** An accepted address puts at least the data write on the bus. *)
Lemma LogData_accepted_calls {B : Type} `{II2CController B}
    (dev : EEPROM24FC256.t) (memAddr : Z) (temp : Float32.float32) (tb : Traced B) :
  Int.is_uint16 memAddr ->
  ~ spec_exceeds_capacity memAddr -> ~ spec_crosses_page_mid_store memAddr ->
  exists (st : I2CStatus) (sts : list I2CStatus),
    calls (snd (EEPROM24FC256.LogData dev memAddr temp tb)) =
    calls tb ++ (CallWrite (EEPROM24FC256.m_address dev)
                   (EEPROM24FC256.payload memAddr
                      (EEPROM24FC256.EncodeTemperature temp)), st)
             :: map (probe dev) sts.
Proof.
  intros Hu Hc Hp. rewrite LogData_accepted by assumption. cbv zeta.
  rewrite traced_Write. cbn [fst snd].
  set (data := EEPROM24FC256.payload memAddr (EEPROM24FC256.EncodeTemperature temp)).
  set (r := Write (EEPROM24FC256.m_address dev) data (inner tb)).
  exists (fst r).
  destruct (I2CStatus_eqb (fst r) OK).
  - unfold EEPROM24FC256.WaitForWriteComplete.
    destruct (poll_calls dev EEPROM24FC256.maxAttempts
                (mkTraced (snd r)
                   (calls tb ++ [(CallWrite (EEPROM24FC256.m_address dev) data, fst r)])))
      as [sts [_ Hcalls]].
    exists sts. cbn [snd]. rewrite Hcalls. cbn [calls].
    rewrite <- app_assoc. reflexivity.
  - exists []. reflexivity.
Qed.

Lemma app_cons_neq {A : Type} (l : list A) (x : A) (l' : list A) :
  l ++ x :: l' <> l.
Proof.
  intro E. apply (f_equal (@List.length A)) in E.
  rewrite length_app in E. simpl in E. lia.
Qed.

Lemma LogData_accepted_not_silent {B : Type} `{II2CController B}
    (dev : EEPROM24FC256.t) (memAddr : Z) (temp : Float32.float32) (tb : Traced B) :
  Int.is_uint16 memAddr ->
  ~ spec_exceeds_capacity memAddr -> ~ spec_crosses_page_mid_store memAddr ->
  EEPROM24FC256.LogData dev memAddr temp tb <> (false, tb).
Proof.
  intros Hu Hc Hp E.
  destruct (LogData_accepted_calls dev memAddr temp tb Hu Hc Hp) as [st [sts Hcalls]].
  rewrite E in Hcalls. simpl in Hcalls. symmetry in Hcalls.
  exact (app_cons_neq _ _ _ Hcalls).
Qed.

(** C2.  An address whose sample would end past the capacity is refused by
    [LogData] before the bus is touched: the result is [false] and the
    controller, with the record of its transactions, is as it was.  At 32767
    the write is refused for every value; 32766 passes the capacity check,
    and the write there succeeds when the transport answers the data write
    with [OK]. *)
Theorem LogData_capacity_boundary
    {B : Type} `{II2CController B}
    (dev : EEPROM24FC256.t) (temp : Float32.float32) (tb : Traced B) :
  (forall memAddr : Z,
      Int.is_uint16 memAddr -> spec_exceeds_capacity memAddr ->
      EEPROM24FC256.LogData dev memAddr temp tb = (false, tb))
  /\ EEPROM24FC256.LogData dev 32767 temp tb = (false, tb)
  /\ ~ spec_exceeds_capacity 32766
  /\ (fst (Write (EEPROM24FC256.m_address dev)
             (EEPROM24FC256.payload 32766 (EEPROM24FC256.EncodeTemperature temp)) tb)
      = OK ->
      fst (EEPROM24FC256.LogData dev 32766 temp tb) = true).
Proof.
  assert (Hc : ~ spec_exceeds_capacity 32766)
    by (unfold spec_exceeds_capacity, EEPROM24FC256.CAPACITY; lia).
  split; [| split; [| split]].
  - intros memAddr Hu Hx. apply LogData_exceeds_capacity; assumption.
  - apply LogData_exceeds_capacity.
    + unfold Int.is_uint16; lia.
    + unfold spec_exceeds_capacity, EEPROM24FC256.CAPACITY; lia.
  - exact Hc.
  - intro Hok. rewrite LogData_accepted.
    + cbv zeta. rewrite Hok. reflexivity.
    + unfold Int.is_uint16; lia.
    + exact Hc.
    + unfold spec_crosses_page_mid_store, EEPROM24FC256.CAPACITY. lia.
Qed.

(** On [MockI2C]: 32767 is refused with no transaction, 32766 is written. *)
Lemma LogData_capacity_boundary_witness :
  EEPROM24FC256.LogData eeprom_0x50 32767 temp_22_5 fresh_mock = (false, fresh_mock)
  /\ fst (Write 80 (EEPROM24FC256.payload 32766
                      (EEPROM24FC256.EncodeTemperature temp_22_5)) fresh_mock) = OK
  /\ fst (EEPROM24FC256.LogData eeprom_0x50 32766 temp_22_5 fresh_mock) = true.
Proof.
  destruct (LogData_capacity_boundary eeprom_0x50 temp_22_5 fresh_mock)
    as [_ [H67 [_ H66]]].
  split; [exact H67 |]. split; [reflexivity |]. apply H66. reflexivity.
Defined.

(** C3.  Among the addresses that pass the capacity check, [LogData] refuses
    without touching the bus exactly those whose page differs from the page
    of the address just past the sample while the sample ends before the end
    of the store.  At 62 (page 0, and 64 is in page 1) the write is refused
    for every value; at 32766 the pages differ as well (511 and 512), but the
    sample ends exactly at the end of the store and the write is not refused
    by validation. *)
Theorem LogData_page_boundary
    {B : Type} `{II2CController B}
    (dev : EEPROM24FC256.t) (temp : Float32.float32) (tb : Traced B) :
  (forall memAddr : Z,
      Int.is_uint16 memAddr -> ~ spec_exceeds_capacity memAddr ->
      (EEPROM24FC256.LogData dev memAddr temp tb = (false, tb)
       <-> spec_crosses_page_mid_store memAddr))
  /\ (62 / EEPROM24FC256.PAGE_SIZE = 0 /\ 64 / EEPROM24FC256.PAGE_SIZE = 1
      /\ EEPROM24FC256.LogData dev 62 temp tb = (false, tb))
  /\ (32766 / EEPROM24FC256.PAGE_SIZE <> (32766 + 2) / EEPROM24FC256.PAGE_SIZE
      /\ EEPROM24FC256.LogData dev 32766 temp tb <> (false, tb)).
Proof.
  split; [| split].
  - intros memAddr Hu Hc. split.
    + intro E. destruct (spec_crosses_page_mid_store_dec memAddr) as [Hx | Hn].
      * exact Hx.
      * exfalso. exact (LogData_accepted_not_silent dev memAddr temp tb Hu Hc Hn E).
    + intro Hx. apply LogData_crosses_page; assumption.
  - split; [reflexivity |]. split; [reflexivity |].
    apply LogData_crosses_page.
    + unfold Int.is_uint16; lia.
    + unfold spec_crosses_page_mid_store, EEPROM24FC256.CAPACITY. split.
      * intro E. discriminate E.
      * lia.
  - split.
    + intro E. discriminate E.
    + apply LogData_accepted_not_silent.
      * unfold Int.is_uint16; lia.
      * unfold spec_exceeds_capacity, EEPROM24FC256.CAPACITY; lia.
      * unfold spec_crosses_page_mid_store, EEPROM24FC256.CAPACITY. lia.
Qed.

(** On [MockI2C]: 62 is refused with no transaction; 60, in the same page as
    62, is written. *)
Lemma LogData_page_boundary_witness :
  (Int.is_uint16 62 /\ ~ spec_exceeds_capacity 62)
  /\ (EEPROM24FC256.LogData eeprom_0x50 62 temp_22_5 fresh_mock = (false, fresh_mock)
      <-> spec_crosses_page_mid_store 62)
  /\ EEPROM24FC256.LogData eeprom_0x50 62 temp_22_5 fresh_mock = (false, fresh_mock)
  /\ fst (EEPROM24FC256.LogData eeprom_0x50 60 temp_22_5 fresh_mock) = true.
Proof.
  assert (Hu : Int.is_uint16 62) by (unfold Int.is_uint16; lia).
  assert (Hc : ~ spec_exceeds_capacity 62)
    by (unfold spec_exceeds_capacity, EEPROM24FC256.CAPACITY; lia).
  destruct (LogData_page_boundary eeprom_0x50 temp_22_5 fresh_mock)
    as [Hiff [[_ [_ H62]] _]].
  split; [exact (conj Hu Hc) |]. split; [exact (Hiff 62 Hu Hc) |].
  split; [exact H62 | reflexivity].
Defined.

(** C8.  An accepted [LogData] call transmits exactly four bytes, in one write
    transaction to the device address: the address, then the encoded sample,
    each most significant byte first.  Every later transaction of the call is
    a zero-length probe of the same device. *)
Theorem LogData_wire_format
    {B : Type} `{II2CController B}
    (dev : EEPROM24FC256.t) (memAddr : Z) (temp : Float32.float32) (tb : Traced B) :
  Int.is_uint16 memAddr ->
  ~ spec_exceeds_capacity memAddr -> ~ spec_crosses_page_mid_store memAddr ->
  let encoded := EEPROM24FC256.EncodeTemperature temp in
  let addressHighByte := Int.high_byte memAddr in
  let addressLowByte := Int.low_byte memAddr in
  let encodedHighByte := Int.high_byte encoded in
  let encodedLowByte := Int.low_byte encoded in
  (exists (st : I2CStatus) (sts : list I2CStatus),
      calls (snd (EEPROM24FC256.LogData dev memAddr temp tb)) =
      calls tb
      ++ (CallWrite (EEPROM24FC256.m_address dev)
            [addressHighByte; addressLowByte; encodedHighByte; encodedLowByte], st)
      :: map (probe dev) sts)
  /\ Forall Int.is_uint8
       [addressHighByte; addressLowByte; encodedHighByte; encodedLowByte]
  /\ 256 * addressHighByte + addressLowByte = memAddr
  /\ Int.to_int16 (256 * encodedHighByte + encodedLowByte) = encoded.
Proof.
  intros Hu Hc Hp. cbv zeta. split; [| split; [| split]].
  - exact (LogData_accepted_calls dev memAddr temp tb Hu Hc Hp).
  - repeat constructor;
      try (apply high_byte_range); try (apply low_byte_range).
  - apply bytes_of_uint16. exact Hu.
  - apply bytes_of_int16. unfold EEPROM24FC256.EncodeTemperature, Float32.to_int16.
    apply to_int16_range.
Qed.

(** On [MockI2C]: logging 22.5 at address 300 sends [01 2C 01 68]. *)
Lemma LogData_wire_format_witness :
  (Int.is_uint16 300 /\ ~ spec_exceeds_capacity 300 /\ ~ spec_crosses_page_mid_store 300)
  /\ exists (st : I2CStatus) (sts : list I2CStatus),
      calls (snd (EEPROM24FC256.LogData eeprom_0x50 300 temp_22_5 fresh_mock)) =
      (CallWrite 80 [1; 44; 1; 104], st) :: map (probe eeprom_0x50) sts.
Proof.
  assert (Hu : Int.is_uint16 300) by (unfold Int.is_uint16; lia).
  assert (Hc : ~ spec_exceeds_capacity 300)
    by (unfold spec_exceeds_capacity, EEPROM24FC256.CAPACITY; lia).
  assert (Hp : ~ spec_crosses_page_mid_store 300)
    by (intros [Hne _]; apply Hne; reflexivity).
  split; [exact (conj Hu (conj Hc Hp)) |].
  exact (proj1 (LogData_wire_format eeprom_0x50 300 temp_22_5 fresh_mock Hu Hc Hp)).
Defined.

(** ** The codec: decoding *)

Lemma holds_on_block_sound (P : Z -> bool) (k : nat) (lo : Z) :
  holds_on_block P k lo = true ->
  forall z : Z, lo <= z < lo + 2 ^ Z.of_nat k -> P z = true.
Proof.
  revert lo. induction k as [| k IH]; intros lo Hall z Hz.
  - simpl in Hz. replace z with lo by lia. exact Hall.
  - cbn [holds_on_block] in Hall. apply andb_prop in Hall as [Hl Hr].
    rewrite Nat2Z.inj_succ, Z.pow_succ_r in Hz by lia.
    destruct (Z_lt_dec z (lo + 2 ^ Z.of_nat k)).
    + apply (IH lo Hl). lia.
    + apply (IH (lo + 2 ^ Z.of_nat k) Hr). lia.
Qed.

Lemma decode_exact_on_int16 : holds_on_block decode_exact_at 16 (-32768) = true.
Proof. vm_compute. reflexivity. Qed.

Lemma DecodeTemperature_exact (encoded : Z) :
  Int.is_int16 encoded ->
  (Float32.to_Q (EEPROM24FC256.DecodeTemperature encoded) == encoded # 16)%Q.
Proof.
  intros [Hlo Hhi]. apply Qeq_bool_iff.
  apply (holds_on_block_sound decode_exact_at 16 (-32768) decode_exact_on_int16).
  simpl. lia.
Qed.

(** ** The codec: encoding and the round trip *)

(** Multiplying a mantissa by 2^23, the mantissa of 16.0f, appends 23 zero
    bits. *)
Lemma digits2_pos_mul_2p23 (m : positive) :
  Zpos (digits2_pos (m * 8388608)) = Zpos (digits2_pos m) + 23.
Proof.
  rewrite Pos.mul_comm. cbn [Pos.mul digits2_pos].
  rewrite !Pos2Z.inj_succ. lia.
Qed.

(** The rounding step of the product with 16.0f, when the shift [sh] it
    applies is between 19 and 23 bits: only zero bits are shifted out, so the
    product is exact. *)
Lemma round_mul16 (s : bool) (m : positive) (e sh : Z) :
  19 <= sh <= 23 ->
  fexp 24 128 (Zpos (digits2_pos m) + 23 + (e - 19)) = e - 19 + sh ->
  e - 19 + sh <= 104 ->
  binary_round_aux 24 128 s (Zpos (m * 8388608)) (e + -19) loc_Exact
  = S754_finite s (m * Z.to_pos (2 ^ (23 - sh))) (e - 19 + sh).
Proof.
  intros Hsh Hfexp Hmax.
  unfold binary_round_aux, shr_fexp.
  cbn [Zdigits2 shr_record_of_loc].
  rewrite digits2_pos_mul_2p23.
  replace (Z.pos (digits2_pos m) + 23 + (e + -19)) with (Z.pos (digits2_pos m) + 23 + (e - 19)) by lia.
  rewrite Hfexp.
  replace (e - 19 + sh - (e + -19)) with sh by lia.
  rewrite (Pos.mul_comm m 8388608). cbn [Pos.mul].
  assert (Hcases : sh = 19 \/ sh = 20 \/ sh = 21 \/ sh = 22 \/ sh = 23) by lia.
  destruct Hcases as [-> | [-> | [-> | [-> | ->]]]];
  cbn [shr iter_pos shr_1 orb shr_m loc_of_shr_record round_nearest_even];
  cbn [Zdigits2 digits2_pos]; rewrite ?Pos2Z.inj_succ;
  match goal with
  | |- context [fexp 24 128 ?x - ?y] =>
      replace (fexp 24 128 x - y) with 0
        by (replace x with (Z.pos (digits2_pos m) + 23 + (e - 19)) by lia;
            rewrite Hfexp; lia)
  end;
  cbn [shr shr_m];
  match goal with
  | |- context [?a <=? 128 - 24] =>
      replace (a <=? 128 - 24) with true by (symmetry; apply Z.leb_le; lia)
  end;
  f_equal; try lia;
  rewrite Pos.mul_comm; reflexivity.
Qed.

Lemma digits2_pos_bound (m : positive) : Zpos m < 2 ^ Zpos (digits2_pos m).
Proof.
  induction m as [m IH | m IH |]; cbn [digits2_pos];
    rewrite ?Pos2Z.inj_succ, ?Z.pow_succ_r by lia.
  - rewrite Pos2Z.inj_xI. lia.
  - rewrite Pos2Z.inj_xO. lia.
  - simpl. lia.
Qed.

(** What [valid_binary] says of a finite binary32 number. *)
Lemma bounded_binary32 (m : positive) (e : Z) :
  bounded 24 128 m e = true ->
  Z.max (Zpos (digits2_pos m) + e - 24) (-149) = e /\ e <= 104.
Proof.
  unfold bounded, canonical_mantissa, fexp, emin. intro Hb.
  apply andb_prop in Hb as [Hc He].
  apply Z.eqb_eq in Hc. apply Z.leb_le in He. split; lia.
Qed.

(** [v * 16.0f] for a finite [v] of exponent at most -17 (so below 128 in
    magnitude): normal or subnormal, the product is [v]'s mantissa with some
    zero bits appended. *)
Lemma mul_16_finite (s : bool) (m : positive) (e : Z) :
  bounded 24 128 m e = true -> e <= -17 ->
  exists sh : Z,
    19 <= sh <= 23 /\
    Float32.mul (S754_finite s m e) Float32.f16_0
    = S754_finite s (m * Z.to_pos (2 ^ (23 - sh))) (e - 19 + sh).
Proof.
  intros Hb He. apply bounded_binary32 in Hb as [Hc _].
  pose proof (Pos2Z.is_pos (digits2_pos m)) as Hd.
  exists (fexp 24 128 (Zpos (digits2_pos m) + 23 + (e - 19)) - (e - 19)).
  assert (Hsh : 19 <= fexp 24 128 (Zpos (digits2_pos m) + 23 + (e - 19)) - (e - 19) <= 23)
    by (unfold fexp, emin; lia).
  split; [exact Hsh |].
  unfold Float32.mul, Float32.f16_0, SFmul, Float32.prec, Float32.emax.
  rewrite xorb_false_r.
  apply round_mul16; lia.
Qed.

Lemma trunc_mul_16 (s : bool) (m : positive) (e : Z) :
  bounded 24 128 m e = true -> e <= -17 ->
  Float32.trunc (Float32.mul (S754_finite s m e) Float32.f16_0)
  = cond_Zopp s (Zpos m / 2 ^ (- e - 4)).
Proof.
  intros Hb He. destruct (mul_16_finite s m e Hb He) as [sh [Hsh ->]].
  unfold Float32.trunc.
  destruct (e - 19 + sh) as [| p | p] eqn:HE; try lia.
  f_equal. rewrite Z.shiftr_div_pow2 by lia.
  assert (Hp : Zpos p = 19 - sh - e) by lia.
  rewrite Pos2Z.inj_mul, Z2Pos.id by (apply Z.pow_pos_nonneg; lia).
  rewrite Hp.
  replace (19 - sh - e) with ((- e - 4) + (23 - sh)) by lia.
  rewrite Z.pow_add_r by lia.
  apply Z.div_mul_cancel_r.
  - apply Z.pow_nonzero; lia.
  - apply Z.pow_nonzero; lia.
Qed.

Lemma sensor_range_exponent (s : bool) (m : positive) (e : Z) :
  Float32.leb sensor_min (S754_finite s m e) = true ->
  Float32.leb (S754_finite s m e) sensor_max = true ->
  e <= -17.
Proof.
  unfold Float32.leb, SFleb, SFcompare, sensor_min, sensor_max.
  destruct s.
  - intros Hlo _. destruct (Z.compare_spec (-18) e); try lia; discriminate Hlo.
  - intros _ Hhi. destruct (Z.compare_spec e (-17)); try lia; discriminate Hhi.
Qed.

Lemma scaled_mantissa_small (m : positive) (e : Z) :
  bounded 24 128 m e = true -> e <= -17 ->
  0 <= Zpos m / 2 ^ (- e - 4) < 2048.
Proof.
  intros Hb He. apply bounded_binary32 in Hb as [Hc _].
  pose proof (digits2_pos_bound m) as Hm.
  assert (Hd : Zpos (digits2_pos m) <= 24) by lia.
  assert (H24 : 2 ^ Zpos (digits2_pos m) <= 2 ^ 24) by (apply Z.pow_le_mono_r; lia).
  assert (H13 : 2 ^ 13 <= 2 ^ (- e - 4)) by (apply Z.pow_le_mono_r; lia).
  change (2 ^ 24) with 16777216 in H24. change (2 ^ 13) with 8192 in H13.
  split.
  - apply Z.div_pos; lia.
  - apply Z.div_lt_upper_bound; lia.
Qed.

Lemma EncodeTemperature_finite (s : bool) (m : positive) (e : Z) :
  bounded 24 128 m e = true -> e <= -17 ->
  EEPROM24FC256.EncodeTemperature (S754_finite s m e)
  = cond_Zopp s (Zpos m / 2 ^ (- e - 4)).
Proof.
  intros Hb He. unfold EEPROM24FC256.EncodeTemperature, Float32.to_int16.
  rewrite trunc_mul_16 by assumption.
  pose proof (scaled_mantissa_small m e Hb He).
  apply to_int16_small. destruct s; simpl; lia.
Qed.

Lemma Qtruncate_scaled (s : bool) (m : positive) (e : Z) :
  e <= -17 ->
  Qtruncate (16 * Float32.to_Q (S754_finite s m e))
  = cond_Zopp s (Zpos m / 2 ^ (- e - 4)).
Proof.
  intro He. destruct e as [| p | p]; try lia.
  unfold Float32.to_Q, Qtruncate. cbn [Qmult Qnum Qden Pos.mul].
  rewrite Pos2Z.inj_pow.
  assert (Hpow : 2 ^ Zpos p = 16 * 2 ^ (- Zneg p - 4)).
  { change 16 with (2 ^ 4). rewrite <- Z.pow_add_r by lia. f_equal. lia. }
  rewrite Hpow.
  assert (Hk : 0 < 2 ^ (- Zneg p - 4)) by (apply Z.pow_pos_nonneg; lia).
  destruct s; cbn [cond_Zopp].
  - rewrite Z.mul_opp_r, Z.quot_opp_l by lia. f_equal.
    rewrite Z.quot_div_nonneg by lia.
    apply Z.div_mul_cancel_l; lia.
  - rewrite Z.quot_div_nonneg by lia.
    apply Z.div_mul_cancel_l; lia.
Qed.

Lemma round_trip_finite (s : bool) (m : positive) (e : Z) :
  e <= -17 ->
  (Qabs ((cond_Zopp s (Zpos m / 2 ^ (- e - 4)) # 16)
         - Float32.to_Q (S754_finite s m e)) < 1 # 16)%Q.
Proof.
  intro He. destruct e as [| p | p]; try lia.
  unfold Float32.to_Q.
  assert (Hpow : Zpos (2 ^ p) = 16 * 2 ^ (- Zneg p - 4)).
  { rewrite Pos2Z.inj_pow. change 16 with (2 ^ 4).
    rewrite <- Z.pow_add_r by lia. f_equal. lia. }
  set (K := 2 ^ (- Zneg p - 4)) in *.
  assert (HK : 0 < K) by (apply Z.pow_pos_nonneg; lia).
  pose proof (Z.div_mod (Zpos m) K ltac:(lia)) as Hdm.
  pose proof (Z.mod_pos_bound (Zpos m) K HK) as Hr.
  apply Qabs_Qlt_condition.
  unfold Qlt, Qminus, Qplus, Qopp. cbn [Qnum Qden].
  rewrite !Pos2Z.inj_mul, Hpow.
  destruct s; cbn [cond_Zopp]; split; nia.
Qed.

(** C7.  For every binary32 value [v] between -55 and +125:
    [EncodeTemperature v] is the integer part, toward zero, of 16 times [v]
    (the product [v * 16.0f] is exact and the conversion truncates);
    [DecodeTemperature] of any [int16_t] is that integer over 16 exactly (the
    floating-point division by 16.0f does not round); and the decoded value
    differs from [v] by less than 1/16. *)
Theorem codec_round_trip (v : Float32.float32) :
  Float32.valid v = true ->
  Float32.leb sensor_min v = true ->
  Float32.leb v sensor_max = true ->
  let encoded := EEPROM24FC256.EncodeTemperature v in
  encoded = Qtruncate (16 * Float32.to_Q v)
  /\ (forall z : Z, Int.is_int16 z ->
        (Float32.to_Q (EEPROM24FC256.DecodeTemperature z) == z # 16)%Q)
  /\ (Float32.to_Q (EEPROM24FC256.DecodeTemperature encoded) == encoded # 16)%Q
  /\ (Qabs (Float32.to_Q (EEPROM24FC256.DecodeTemperature encoded) - Float32.to_Q v)
      < 1 # 16)%Q.
Proof.
  intros Hvalid Hlo Hhi. cbv zeta.
  assert (Hall : forall z : Z, Int.is_int16 z ->
            (Float32.to_Q (EEPROM24FC256.DecodeTemperature z) == z # 16)%Q)
    by exact DecodeTemperature_exact.
  destruct v as [s | s | | s m e].
  - split; [destruct s; reflexivity |]. split; [exact Hall |].
    destruct s; vm_compute; repeat split.
  - destruct s; [discriminate Hlo | discriminate Hhi].
  - discriminate Hlo.
  - pose proof (sensor_range_exponent s m e Hlo Hhi) as He.
    unfold Float32.valid, valid_binary in Hvalid.
    assert (Hdec : (Float32.to_Q (EEPROM24FC256.DecodeTemperature
                      (EEPROM24FC256.EncodeTemperature (S754_finite s m e)))
                    == EEPROM24FC256.EncodeTemperature (S754_finite s m e) # 16)%Q).
    { apply DecodeTemperature_exact.
      unfold EEPROM24FC256.EncodeTemperature, Float32.to_int16. apply to_int16_range. }
    split; [| split; [exact Hall | split]].
    + rewrite EncodeTemperature_finite, Qtruncate_scaled by assumption. reflexivity.
    + exact Hdec.
    + rewrite Hdec. rewrite EncodeTemperature_finite by assumption.
      apply round_trip_finite. exact He.
Qed.

(** 22.5 encodes to 360 and decodes to 22.5. *)
Lemma codec_round_trip_witness :
  (Float32.valid temp_22_5 = true
   /\ Float32.leb sensor_min temp_22_5 = true
   /\ Float32.leb temp_22_5 sensor_max = true)
  /\ EEPROM24FC256.EncodeTemperature temp_22_5 = 360
  /\ (Qabs (Float32.to_Q (EEPROM24FC256.DecodeTemperature
                            (EEPROM24FC256.EncodeTemperature temp_22_5))
            - Float32.to_Q temp_22_5) < 1 # 16)%Q.
Proof.
  assert (Hv : Float32.valid temp_22_5 = true) by reflexivity.
  assert (Hlo : Float32.leb sensor_min temp_22_5 = true) by reflexivity.
  assert (Hhi : Float32.leb temp_22_5 sensor_max = true) by reflexivity.
  split; [exact (conj Hv (conj Hlo Hhi)) |]. split; [reflexivity |].
  exact (proj2 (proj2 (proj2 (codec_round_trip temp_22_5 Hv Hlo Hhi)))).
Defined.

(** Truncation, not rounding to nearest: 22.99f times 16 is about 367.84 and
    encodes to 367; -22.99f encodes to -367. *)
Example EncodeTemperature_truncates :
  EEPROM24FC256.EncodeTemperature (Float32.div (Float32.of_Z 2299) (Float32.of_Z 100))
  = 367
  /\ EEPROM24FC256.EncodeTemperature
       (Float32.div (Float32.of_Z (-2299)) (Float32.of_Z 100))
     = -367.
Proof. split; reflexivity. Qed.

(** ** The storage driver: [ReadData] *)

Section StoreReads.
Context {B : Type} `{II2CController B}.
Variable dev : EEPROM24FC256.t.

Lemma ReadData_out_of_bounds (memAddr : Z) (b : B) :
  memAddr >= EEPROM24FC256.CAPACITY - 1 ->
  EEPROM24FC256.ReadData dev memAddr b = (Float32.fm999_0, b).
Proof.
  unfold EEPROM24FC256.ReadData, EEPROM24FC256.CAPACITY. intro Hge.
  destruct (Z.leb_spec (32768 - 1) memAddr); [reflexivity | lia].
Qed.

Lemma ReadData_in_bounds (memAddr : Z) (b : B) :
  memAddr < EEPROM24FC256.CAPACITY - 1 ->
  EEPROM24FC256.ReadData dev memAddr b =
  let r := read_transaction dev memAddr b in
  let data := snd (fst r) in
  (if I2CStatus_eqb (fst (fst r)) OK
   then EEPROM24FC256.DecodeTemperature
          (Int.to_int16 (Z.lor (Z.shiftl (nth 0 data 0) 8) (nth 1 data 0)))
   else Float32.fm999_0,
   snd r).
Proof.
  unfold EEPROM24FC256.ReadData, EEPROM24FC256.CAPACITY, read_transaction. intro Hlt.
  destruct (Z.leb_spec (32768 - 1) memAddr); [lia |].
  unfold bind, ret. cbv zeta.
  destruct (WriteRead _ _ _ b) as [[st data] b']. cbn [fst snd].
  destruct (I2CStatus_eqb st OK); reflexivity.
Qed.

End StoreReads.

(** C6.  [ReadData] returns the sentinel -999.0f for every address from 32767
    on, without touching the bus, and whenever the [WriteRead] transaction is
    answered by a status other than [OK].  Otherwise it returns the two bytes
    received, read most significant first as a signed 16-bit integer, divided
    by 16.  In particular [ReadData 32767] is the sentinel, and a transport
    answering [Nack] yields the sentinel. *)
Theorem ReadData_sentinel_or_decoded
    {B : Type} `{II2CController B}
    (dev : EEPROM24FC256.t) (memAddr : Z) (tb : Traced B) :
  (memAddr >= 32767 ->
     EEPROM24FC256.ReadData dev memAddr tb = (Float32.fm999_0, tb))
  /\ (memAddr < 32767 ->
      fst (fst (read_transaction dev memAddr tb)) <> OK ->
      fst (EEPROM24FC256.ReadData dev memAddr tb) = Float32.fm999_0)
  /\ (memAddr < 32767 ->
      forall (hi lo : Z) (tb' : Traced B),
        read_transaction dev memAddr tb = ((OK, [hi; lo]), tb') ->
        Int.is_uint8 hi -> Int.is_uint8 lo ->
        let encoded := Int.to_int16 (256 * hi + lo) in
        EEPROM24FC256.ReadData dev memAddr tb =
          (EEPROM24FC256.DecodeTemperature encoded, tb')
        /\ (Float32.to_Q (fst (EEPROM24FC256.ReadData dev memAddr tb))
            == encoded # 16)%Q)
  /\ EEPROM24FC256.ReadData dev 32767 tb = (Float32.fm999_0, tb)
  /\ (fst (fst (read_transaction dev memAddr tb)) = Nack ->
      fst (EEPROM24FC256.ReadData dev memAddr tb) = Float32.fm999_0)
  /\ (Float32.to_Q Float32.fm999_0 == -999 # 1)%Q.
Proof.
  split; [| split; [| split; [| split; [| split]]]].
  - intro Hge. apply ReadData_out_of_bounds. unfold EEPROM24FC256.CAPACITY. lia.
  - intros Hlt Hst. rewrite ReadData_in_bounds by (unfold EEPROM24FC256.CAPACITY; lia).
    cbv zeta. cbn [fst]. apply I2CStatus_eqb_neq in Hst. rewrite Hst. reflexivity.
  - intros Hlt hi lo tb' Hr Hhi Hlo. cbv zeta.
    rewrite ReadData_in_bounds by (unfold EEPROM24FC256.CAPACITY; lia).
    cbv zeta. rewrite Hr. cbn [fst snd nth I2CStatus_eqb].
    rewrite lor_shiftl_bytes by exact Hlo.
    split; [reflexivity |]. apply DecodeTemperature_exact. apply to_int16_range.
  - apply ReadData_out_of_bounds. unfold EEPROM24FC256.CAPACITY. lia.
  - intro Hst. destruct (Z_lt_dec memAddr 32767) as [Hlt | Hge].
    + rewrite ReadData_in_bounds by (unfold EEPROM24FC256.CAPACITY; lia).
      cbv zeta. cbn [fst]. rewrite Hst. reflexivity.
    + rewrite ReadData_out_of_bounds by (unfold EEPROM24FC256.CAPACITY; lia).
      reflexivity.
  - reflexivity.
Qed.

(** On [MockI2C]: a fresh EEPROM holds 0xFF everywhere, so address 100 reads
    as -1/16; address 32767 reads as the sentinel with no transaction; and
    right after a data write the mock is busy, answers the read with [Nack],
    and [ReadData] returns the sentinel. *)
Lemma ReadData_sentinel_or_decoded_witness :
  (EEPROM24FC256.ReadData eeprom_0x50 32767 fresh_mock = (Float32.fm999_0, fresh_mock))
  /\ (Float32.to_Q (fst (EEPROM24FC256.ReadData eeprom_0x50 100 fresh_mock))
      == -1 # 16)%Q
  /\ (fst (fst (read_transaction eeprom_0x50 0 mock_busy)) = Nack
      /\ fst (EEPROM24FC256.ReadData eeprom_0x50 0 mock_busy) = Float32.fm999_0).
Proof.
  destruct (ReadData_sentinel_or_decoded eeprom_0x50 100 fresh_mock)
    as [_ [_ [Hdec [H67 _]]]].
  split; [exact H67 |].
  assert (Hlt : 100 < 32767) by lia.
  assert (Hu : Int.is_uint8 255) by (unfold Int.is_uint8; lia).
  split; [exact (proj2 (Hdec Hlt 255 255 _ eq_refl Hu Hu)) |].
  assert (Hnack : fst (fst (read_transaction eeprom_0x50 0 mock_busy)) = Nack)
    by reflexivity.
  split; [exact Hnack |].
  destruct (ReadData_sentinel_or_decoded eeprom_0x50 0 mock_busy)
    as [_ [_ [_ [_ [Hn _]]]]].
  exact (Hn Hnack).
Defined.

(** C9.  When the device answers an in-bounds read with status [OK] and the
    two bytes 0xC1 0x90, which read as the signed 16-bit integer -15984,
    [ReadData] returns exactly -999.0f: the value it also returns for an
    address out of bounds. *)
Theorem ReadData_stored_sentinel
    {B : Type} `{II2CController B}
    (dev : EEPROM24FC256.t) (memAddr : Z) (b b' : B) :
  0 <= memAddr < 32767 ->
  read_transaction dev memAddr b = ((OK, [193; 144]), b') ->
  Int.to_int16 (Z.lor (Z.shiftl 193 8) 144) = -15984
  /\ fst (EEPROM24FC256.ReadData dev memAddr b) = Float32.fm999_0
  /\ fst (EEPROM24FC256.ReadData dev memAddr b)
     = fst (EEPROM24FC256.ReadData dev 32767 b).
Proof.
  intros Hb Hr.
  assert (Hval : fst (EEPROM24FC256.ReadData dev memAddr b) = Float32.fm999_0).
  { rewrite ReadData_in_bounds by (unfold EEPROM24FC256.CAPACITY; lia).
    cbv zeta. rewrite Hr. reflexivity. }
  split; [reflexivity |]. split; [exact Hval |].
  rewrite Hval. rewrite ReadData_out_of_bounds by (unfold EEPROM24FC256.CAPACITY; lia).
  reflexivity.
Qed.

Lemma ReadData_stored_sentinel_witness :
  (0 <= 0 < 32767
   /\ read_transaction eeprom_0x50 0 mock_holding_sentinel
      = ((OK, [193; 144]), mock_holding_sentinel))
  /\ fst (EEPROM24FC256.ReadData eeprom_0x50 0 mock_holding_sentinel) = Float32.fm999_0.
Proof.
  assert (Hb : 0 <= 0 < 32767) by lia.
  assert (Hr : read_transaction eeprom_0x50 0 mock_holding_sentinel
               = ((OK, [193; 144]), mock_holding_sentinel)) by reflexivity.
  split; [exact (conj Hb Hr) |].
  exact (proj1 (proj2 (ReadData_stored_sentinel eeprom_0x50 0
                         mock_holding_sentinel mock_holding_sentinel Hb Hr))).
Defined.

(** ** The logging loop *)

Section LoggingLoop.
Context {B : Type} `{II2CController B}.

(** What one log cycle leaves in the locals and the counters, whatever the
    sensor and the store answered. *)
Lemma log_cycle_eepromAddress (currentTime : Z) (st : Main.State B) :
  Main.eepromAddress (Main.log_cycle currentTime st) =
  if 32766 <=? Int.to_uint16 (Main.eepromAddress st + 2)
  then 0 else Int.to_uint16 (Main.eepromAddress st + 2).
Proof.
  unfold Main.log_cycle.
  destruct (TMP100.ReadTemperature _ _) as [temperature bus1].
  destruct (EEPROM24FC256.LogData _ _ _ _) as [ok bus2]. reflexivity.
Qed.

Lemma log_cycle_lastLogTime (currentTime : Z) (st : Main.State B) :
  Main.lastLogTime (Main.log_cycle currentTime st) = currentTime.
Proof.
  unfold Main.log_cycle.
  destruct (TMP100.ReadTemperature _ _) as [temperature bus1].
  destruct (EEPROM24FC256.LogData _ _ _ _) as [ok bus2]. reflexivity.
Qed.

Lemma log_cycle_sampleCount (currentTime : Z) (st : Main.State B) :
  Main.g_sampleCount (Main.globals (Main.log_cycle currentTime st)) =
  Int.to_uint32 (Main.g_sampleCount (Main.globals st) + 1).
Proof.
  unfold Main.log_cycle.
  destruct (TMP100.ReadTemperature _ _) as [temperature bus1].
  destruct (EEPROM24FC256.LogData _ _ _ _) as [ok bus2]. reflexivity.
Qed.

Lemma log_cycle_timer (currentTime : Z) (st : Main.State B) :
  Main.timer (Main.log_cycle currentTime st) =
  MockTimer.AdvanceTime 600 (Main.timer st).
Proof.
  unfold Main.log_cycle.
  destruct (TMP100.ReadTemperature _ _) as [temperature bus1].
  destruct (EEPROM24FC256.LogData _ _ _ _) as [ok bus2]. reflexivity.
Qed.

Lemma startup_locals (bus0 : B) :
  Main.eepromAddress (Main.startup bus0) = 0
  /\ Main.lastLogTime (Main.startup bus0) = 0
  /\ Main.g_sampleCount (Main.globals (Main.startup bus0)) = 0.
Proof.
  unfold Main.startup.
  destruct (TMP100.Init _ _) as [[ok sensor] bus1]. repeat split.
Qed.

Lemma log_cycle_logged (currentTime : Z) (st : Main.State B) :
  logged st (Main.log_cycle currentTime st) = true.
Proof.
  unfold logged. rewrite log_cycle_sampleCount.
  apply negb_true_iff, Z.eqb_neq. unfold Int.to_uint32.
  set (c := Main.g_sampleCount (Main.globals st)).
  pose proof (Z.div_mod (c + 1) 4294967296 ltac:(lia)).
  pose proof (Z.mod_pos_bound (c + 1) 4294967296 ltac:(lia)). lia.
Qed.

Lemma next_cursor_ok (cursor : Z) : cursor_ok cursor -> cursor_ok (next_cursor cursor).
Proof.
  unfold cursor_ok, next_cursor, EEPROM24FC256.CAPACITY. intros [Hev Hr].
  destruct (Z.geb_spec (cursor + 2) (32768 - 2)) as [Hge | Hlt].
  - split; [reflexivity | lia].
  - split.
    + rewrite Z.even_add, Hev. reflexivity.
    + assert (cursor + 2 <> 32765).
      { intro E. assert (Ho : Z.even (cursor + 2) = true)
          by (rewrite Z.even_add, Hev; reflexivity).
        rewrite E in Ho. discriminate Ho. }
      lia.
Qed.

Lemma log_cycle_next_cursor (currentTime : Z) (st : Main.State B) :
  cursor_ok (Main.eepromAddress st) ->
  Main.eepromAddress (Main.log_cycle currentTime st)
  = next_cursor (Main.eepromAddress st).
Proof.
  unfold cursor_ok, next_cursor, EEPROM24FC256.CAPACITY. intros [_ Hr].
  rewrite log_cycle_eepromAddress.
  rewrite to_uint16_small by lia.
  destruct (Z.leb_spec 32766 (Main.eepromAddress st + 2));
    destruct (Z.geb_spec (Main.eepromAddress st + 2) (32768 - 2)); try lia; reflexivity.
Qed.

Lemma reachable_cursor_ok (bus0 : B) (st : Main.State B) :
  reachable bus0 st -> cursor_ok (Main.eepromAddress st).
Proof.
  induction 1 as [| st t Hreach IH | st Hreach IH Hcount].
  - destruct (startup_locals bus0) as [-> _].
    unfold cursor_ok, EEPROM24FC256.CAPACITY. split; [reflexivity | lia].
  - exact IH.
  - unfold Main.loop_iteration.
    destruct (Main.interval_elapsed _ _); [| exact IH].
    rewrite log_cycle_next_cursor by exact IH. apply next_cursor_ok. exact IH.
Qed.

(** The [while] loop of [main] only visits reachable states. *)
Lemma main_loop_reachable (bus0 : B) (fuel : nat) (st : Main.State B) :
  reachable bus0 st -> reachable bus0 (Main.main_loop fuel st).
Proof.
  revert st. induction fuel as [| fuel IH]; intros st Hreach; [exact Hreach |].
  cbn [Main.main_loop].
  destruct (Z.ltb_spec (Main.g_sampleCount (Main.globals st)) 16384)
    as [Hlt | Hge]; [| exact Hreach].
  apply IH. apply reach_iteration; assumption.
Qed.

End LoggingLoop.

(** C4.  In every state the loop can reach from its entry (cursor 0), the
    cursor is even and lies between 0 and 32764, so it never exceeds
    CAPACITY - 2 and the last two bytes of the store are never addressed; and
    a log cycle run from there moves the cursor to cursor + 2, or to 0 when
    cursor + 2 reaches 32766, whether [LogData] reported success or
    failure. *)
Theorem cursor_circular_invariant
    {B : Type} `{II2CController B} (bus0 : B) (st : Main.State B) :
  reachable bus0 st ->
  Main.eepromAddress (Main.startup bus0) = 0
  /\ Z.even (Main.eepromAddress st) = true
  /\ 0 <= Main.eepromAddress st <= 32764
  /\ Main.eepromAddress st <= EEPROM24FC256.CAPACITY - 2
  /\ (forall (currentTime : Z) (writeSuccess : bool),
        Main.g_writeSuccess (Main.globals (Main.log_cycle currentTime st))
        = writeSuccess ->
        Main.eepromAddress (Main.log_cycle currentTime st)
        = if Main.eepromAddress st + 2 >=? 32766 then 0
          else Main.eepromAddress st + 2).
Proof.
  intro Hreach. pose proof (reachable_cursor_ok bus0 st Hreach) as Hok.
  destruct Hok as [Hev Hr]. unfold EEPROM24FC256.CAPACITY in *.
  split; [exact (proj1 (startup_locals bus0)) |].
  split; [exact Hev |]. split; [lia |]. split; [lia |].
  intros currentTime writeSuccess _.
  apply (log_cycle_next_cursor currentTime st).
  split; [exact Hev | exact Hr].
Qed.

Lemma mock_after_first_cycle_reachable :
  reachable MockI2C.create mock_after_first_cycle.
Proof.
  apply reach_iteration.
  - apply reach_time. apply reach_startup.
  - reflexivity.
Defined.

(** After the first cycle, whose write succeeded, the cursor is 2; the next
    cycle moves it to 4. *)
Lemma cursor_circular_invariant_witness :
  reachable MockI2C.create mock_after_first_cycle
  /\ Main.g_writeSuccess (Main.globals mock_after_first_cycle) = true
  /\ Main.eepromAddress mock_after_first_cycle = 2
  /\ Main.eepromAddress (Main.log_cycle 1200 mock_after_first_cycle) = 4.
Proof.
  split; [exact mock_after_first_cycle_reachable |].
  split; [reflexivity |]. split; [reflexivity |].
  destruct (cursor_circular_invariant MockI2C.create mock_after_first_cycle
              mock_after_first_cycle_reachable) as [_ [_ [_ [_ Hstep]]]].
  exact (Hstep 1200 _ eq_refl).
Defined.

(** The 32nd cycle of [main] writes at cursor 62: [LogData] refuses the address
    (page check) and reports failure, and the cursor still moves on to 64. *)
Example cursor_advances_after_failed_write :
  let reads := map (fun k => 600 * Z.of_nat k) (seq 1 31) in
  let st := snd (run_reads reads mock_startup) in
  Main.eepromAddress st = 62
  /\ Main.g_writeSuccess (Main.globals (Main.log_cycle 19200 st)) = false
  /\ Main.eepromAddress (Main.log_cycle 19200 st) = 64.
Proof. vm_compute. repeat split. Qed.

Section IntervalLogic.
Context {B : Type} `{II2CController B}.

Lemma loop_iteration_triggered (st : Main.State B) :
  Main.interval_elapsed (MockTimer.GetElapsedSeconds (Main.timer st))
    (Main.lastLogTime st) = true ->
  Main.loop_iteration st
  = Main.log_cycle (MockTimer.GetElapsedSeconds (Main.timer st)) st.
Proof. intro Ht. unfold Main.loop_iteration. rewrite Ht. reflexivity. Qed.

Lemma loop_iteration_idle (st : Main.State B) :
  Main.interval_elapsed (MockTimer.GetElapsedSeconds (Main.timer st))
    (Main.lastLogTime st) = false ->
  Main.loop_iteration st = st.
Proof. intro Ht. unfold Main.loop_iteration. rewrite Ht. reflexivity. Qed.

Lemma interval_elapsed_monotonic (currentTime lastLogTime : Z) :
  Int.is_uint32 currentTime -> 0 <= lastLogTime <= currentTime ->
  Main.interval_elapsed currentTime lastLogTime = true
  <-> currentTime - lastLogTime >= 600.
Proof.
  unfold Int.is_uint32, Main.interval_elapsed. intros Hc Hl.
  rewrite to_uint32_small by lia. rewrite Z.leb_le. lia.
Qed.

Lemma run_reads_trigger_times (reads : list Z) (st : Main.State B) :
  fst (run_reads reads st) = trigger_times reads (Main.lastLogTime st).
Proof.
  revert st. induction reads as [| t rest IH]; intro st; [reflexivity |].
  cbn [run_reads trigger_times].
  destruct (run_reads rest (Main.loop_iteration (set_time t st)))
    as [events final] eqn:Hrun.
  pose proof (IH (Main.loop_iteration (set_time t st))) as IHst.
  rewrite Hrun in IHst. cbn [fst] in IHst. cbn [fst].
  destruct (Main.interval_elapsed t (Main.lastLogTime st)) eqn:Ht.
  - assert (Hit : Main.loop_iteration (set_time t st)
                  = Main.log_cycle t (set_time t st))
      by exact (loop_iteration_triggered (set_time t st) Ht).
    rewrite Hit in *. rewrite log_cycle_lastLogTime in IHst.
    assert (Hlogged : logged st (Main.log_cycle t (set_time t st)) = true)
      by exact (log_cycle_logged t (set_time t st)).
    rewrite Hlogged, IHst. reflexivity.
  - assert (Hit : Main.loop_iteration (set_time t st) = set_time t st)
      by exact (loop_iteration_idle (set_time t st) Ht).
    rewrite Hit in *.
    assert (Hlogged : logged st (set_time t st) = false)
      by (unfold logged, set_time; cbn [Main.globals]; rewrite Z.eqb_refl;
          reflexivity).
    rewrite Hlogged. exact IHst.
Qed.

End IntervalLogic.

(** C5.  With [lastLogTime] 0 at loop entry: an iteration that reads
    [currentTime] (no earlier than the last trigger) performs a log cycle
    exactly when [currentTime - lastLogTime >= 600]; the cycle sets
    [lastLogTime] to the [currentTime] it read; an iteration that does not
    trigger changes nothing.  When the successive reads are 0, 60, 120, ...,
    7200, log events are triggered at exactly the 12 reads 600, 1200, ...,
    7200. *)
Theorem interval_triggering
    {B : Type} `{II2CController B} (bus0 : B) :
  Main.lastLogTime (Main.startup bus0) = 0
  /\ (forall st : Main.State B,
        let currentTime := MockTimer.GetElapsedSeconds (Main.timer st) in
        Int.is_uint32 currentTime ->
        0 <= Main.lastLogTime st <= currentTime ->
        (currentTime - Main.lastLogTime st >= 600 ->
           logged st (Main.loop_iteration st) = true
           /\ Main.loop_iteration st = Main.log_cycle currentTime st
           /\ Main.lastLogTime (Main.loop_iteration st) = currentTime)
        /\ (currentTime - Main.lastLogTime st < 600 ->
           logged st (Main.loop_iteration st) = false
           /\ Main.loop_iteration st = st))
  /\ fst (run_reads reads_every_60s (Main.startup bus0))
     = [600; 1200; 1800; 2400; 3000; 3600; 4200; 4800; 5400; 6000; 6600; 7200]
  /\ List.length (fst (run_reads reads_every_60s (Main.startup bus0))) = 12%nat.
Proof.
  assert (Hevents : fst (run_reads reads_every_60s (Main.startup bus0))
            = [600; 1200; 1800; 2400; 3000; 3600; 4200; 4800; 5400; 6000; 6600; 7200]).
  { rewrite run_reads_trigger_times.
    destruct (startup_locals bus0) as [_ [-> _]]. reflexivity. }
  split; [exact (proj1 (proj2 (startup_locals bus0))) |].
  split; [| split; [exact Hevents | rewrite Hevents; reflexivity]].
  intros st currentTime Hc Hl.
  pose proof (interval_elapsed_monotonic currentTime (Main.lastLogTime st) Hc Hl) as Hiff.
  split.
  - intro Hge. apply Hiff in Hge.
    rewrite (loop_iteration_triggered st Hge). fold currentTime.
    split; [apply log_cycle_logged |]. split; [reflexivity |].
    apply log_cycle_lastLogTime.
  - intro Hlt.
    assert (Hidle : Main.interval_elapsed currentTime (Main.lastLogTime st) = false).
    { destruct (Main.interval_elapsed currentTime (Main.lastLogTime st)); [| reflexivity].
      assert (currentTime - Main.lastLogTime st >= 600) by (apply Hiff; reflexivity).
      lia. }
    rewrite (loop_iteration_idle st Hidle).
    split; [| reflexivity].
    unfold logged. rewrite Z.eqb_refl. reflexivity.
Qed.

(** [main] on its [MockI2C], read every 60 s: 12 log events, the last at
    7200 s, leaving the cursor at 24. *)
Lemma interval_triggering_witness :
  fst (run_reads reads_every_60s mock_startup)
  = [600; 1200; 1800; 2400; 3000; 3600; 4200; 4800; 5400; 6000; 6600; 7200]
  /\ Main.lastLogTime (snd (run_reads reads_every_60s mock_startup)) = 7200
  /\ Main.eepromAddress (snd (run_reads reads_every_60s mock_startup)) = 24.
Proof.
  split; [exact (proj1 (proj2 (proj2 (interval_triggering MockI2C.create)))) |].
  split; vm_compute; reflexivity.
Defined.

(* ================================================================== *)
(** * Further properties *)

(** ** Further properties of the storage driver *)

Lemma reencode_on_int16 : holds_on_block reencode_ok 16 (-32768) = true.
Proof. vm_compute. reflexivity. Qed.

(** X1.  Decoding a stored sample and encoding it again gives the sample
    back, for each of the 65536 values an [int16_t] can take. *)
Theorem EncodeTemperature_DecodeTemperature (encoded : Z) :
  Int.is_int16 encoded ->
  EEPROM24FC256.EncodeTemperature (EEPROM24FC256.DecodeTemperature encoded) = encoded.
Proof.
  intros [Hlo Hhi]. apply Z.eqb_eq.
  apply (holds_on_block_sound reencode_ok 16 (-32768) reencode_on_int16).
  simpl. lia.
Qed.

Lemma EncodeTemperature_DecodeTemperature_witness :
  Int.is_int16 (-15984)
  /\ EEPROM24FC256.EncodeTemperature (EEPROM24FC256.DecodeTemperature (-15984)) = -15984.
Proof.
  assert (Hr : Int.is_int16 (-15984)) by (unfold Int.is_int16; lia).
  split; [exact Hr |]. exact (EncodeTemperature_DecodeTemperature (-15984) Hr).
Defined.

Section PollOutcome.
Context {B : Type} `{II2CController B}.
Variable dev : EEPROM24FC256.t.

(** The poll stops at the first acknowledged probe. *)
Lemma poll_stops_at_first_ack (n : nat) (tb : Traced B) :
  (0 < n)%nat ->
  exists sts : list I2CStatus,
    poll_outcome n sts
    /\ calls (snd (EEPROM24FC256.poll dev n tb)) = calls tb ++ map (probe dev) sts.
Proof.
  revert tb. induction n as [| n IH]; intros tb Hn; [lia |].
  cbn [EEPROM24FC256.poll]. unfold bind. rewrite traced_Write.
  set (st := fst (Write (EEPROM24FC256.m_address dev) [] (inner tb))).
  set (tb1 := mkTraced (snd (Write (EEPROM24FC256.m_address dev) [] (inner tb)))
                (calls tb ++ [(CallWrite (EEPROM24FC256.m_address dev) [], st)])).
  destruct (I2CStatus_eqb st OK) eqn:Hst.
  - apply I2CStatus_eqb_eq in Hst. exists [st]. split.
    + left. exists []. rewrite Hst. split; [reflexivity |].
      split; [constructor | simpl; lia].
    + reflexivity.
  - apply I2CStatus_eqb_neq in Hst. destruct n as [| n].
    + exists [st]. split.
      * right. split; [reflexivity |]. constructor; [exact Hst | constructor].
      * reflexivity.
    + destruct (IH tb1 ltac:(lia)) as [sts [Hout Hcalls]].
      exists (st :: sts). split.
      * destruct Hout as [[pre [Hsts [Hpre Hlen]]] | [Hlen Hall]].
        -- left. exists (st :: pre). rewrite Hsts. split; [reflexivity |].
           split; [constructor; assumption | simpl; lia].
        -- right. split; [simpl; lia | constructor; assumption].
      * rewrite Hcalls. unfold tb1. cbn [calls]. rewrite <- app_assoc. reflexivity.
Qed.

End PollOutcome.

(** X2.  For an address that passes validation, [LogData] returns [true]
    exactly when the data write is answered [OK].  When it is not, the data
    write is the only transaction of the call (no poll).  When it is, the poll
    follows: between 1 and 100 zero-length probes, stopping at the first one
    answered [OK]; so a call puts at most 101 transactions on the bus. *)
Theorem LogData_transactions
    {B : Type} `{II2CController B}
    (dev : EEPROM24FC256.t) (memAddr : Z) (temp : Float32.float32) (tb : Traced B) :
  Int.is_uint16 memAddr ->
  ~ spec_exceeds_capacity memAddr -> ~ spec_crosses_page_mid_store memAddr ->
  let data := EEPROM24FC256.payload memAddr (EEPROM24FC256.EncodeTemperature temp) in
  let st := fst (Write (EEPROM24FC256.m_address dev) data tb) in
  let after := snd (EEPROM24FC256.LogData dev memAddr temp tb) in
  fst (EEPROM24FC256.LogData dev memAddr temp tb) = I2CStatus_eqb st OK
  /\ (st <> OK ->
      calls after = calls tb ++ [(CallWrite (EEPROM24FC256.m_address dev) data, st)])
  /\ (st = OK ->
      exists sts : list I2CStatus,
        poll_outcome 100 sts
        /\ calls after
           = calls tb ++ (CallWrite (EEPROM24FC256.m_address dev) data, OK)
                      :: map (probe dev) sts)
  /\ (List.length (calls after) <= List.length (calls tb) + 101)%nat.
Proof.
  intros Hu Hc Hp. cbv zeta.
  rewrite (LogData_accepted dev memAddr temp tb Hu Hc Hp). cbv zeta.
  set (data := EEPROM24FC256.payload memAddr (EEPROM24FC256.EncodeTemperature temp)).
  rewrite traced_Write. cbn [fst snd].
  set (st := fst (Write (EEPROM24FC256.m_address dev) data (inner tb))).
  set (tb1 := mkTraced (snd (Write (EEPROM24FC256.m_address dev) data (inner tb)))
                (calls tb ++ [(CallWrite (EEPROM24FC256.m_address dev) data, st)])).
  destruct (poll_stops_at_first_ack dev 100 tb1 ltac:(lia)) as [sts [Hout Hcalls]].
  assert (Hlen : (List.length sts <= 100)%nat).
  { destruct Hout as [[pre [-> [_ Hl]]] | [Hl _]].
    - rewrite length_app. simpl. lia.
    - lia. }
  destruct (I2CStatus_eqb st OK) eqn:Hst; cbn [fst snd].
  - apply I2CStatus_eqb_eq in Hst.
    assert (Hafter : calls (snd (EEPROM24FC256.WaitForWriteComplete dev tb1))
                     = calls tb ++ (CallWrite (EEPROM24FC256.m_address dev) data, OK)
                                :: map (probe dev) sts).
    { unfold EEPROM24FC256.WaitForWriteComplete, EEPROM24FC256.maxAttempts.
      rewrite Hcalls. unfold tb1. cbn [calls]. rewrite Hst, <- app_assoc. reflexivity. }
    split; [reflexivity |]. split; [intro Hne; contradiction |].
    split.
    + intros _. exists sts. split; [exact Hout | exact Hafter].
    + rewrite Hafter, length_app. cbn [List.length]. rewrite length_map. lia.
  - apply I2CStatus_eqb_neq in Hst.
    split; [reflexivity |]. split; [intros _; reflexivity |].
    split; [intro He; contradiction |].
    unfold tb1. cbn [calls]. rewrite length_app. simpl. lia.
Qed.

(** On [MockI2C]: a data write to a busy EEPROM is answered [Nack]; [LogData]
    returns [false] after that single transaction. *)
Lemma LogData_transactions_witness :
  (Int.is_uint16 0 /\ ~ spec_exceeds_capacity 0 /\ ~ spec_crosses_page_mid_store 0)
  /\ fst (EEPROM24FC256.LogData eeprom_0x50 0 temp_22_5 mock_busy) = false
  /\ (List.length (calls (snd (EEPROM24FC256.LogData eeprom_0x50 0 temp_22_5 mock_busy)))
      <= List.length (calls mock_busy) + 101)%nat.
Proof.
  assert (Hu : Int.is_uint16 0) by (unfold Int.is_uint16; lia).
  assert (Hc : ~ spec_exceeds_capacity 0)
    by (unfold spec_exceeds_capacity, EEPROM24FC256.CAPACITY; lia).
  assert (Hp : ~ spec_crosses_page_mid_store 0)
    by (intros [Hne _]; apply Hne; reflexivity).
  destruct (LogData_transactions eeprom_0x50 0 temp_22_5 mock_busy Hu Hc Hp)
    as [Hres [_ [_ Hlen]]].
  split; [exact (conj Hu (conj Hc Hp)) |].
  split; [exact Hres | exact Hlen].
Defined.



(** ** The EEPROM mock *)

Lemma store_bytes_outside (bytes : list Z) (mem : Z -> Z) (addr j : Z) :
  j < addr \/ addr + Z.of_nat (List.length bytes) <= j ->
  MockEEPROM.store_bytes mem addr bytes j = mem j.
Proof.
  revert mem addr. induction bytes as [| v rest IH]; intros mem addr Hj; [reflexivity |].
  cbn [MockEEPROM.store_bytes]. cbn [List.length] in Hj.
  rewrite IH by lia. unfold MockEEPROM.store.
  destruct (Z.eqb_spec j addr); [lia | reflexivity].
Qed.

Lemma store_bytes_inside (bytes : list Z) (mem : Z -> Z) (addr : Z) (i : nat) :
  (i < List.length bytes)%nat ->
  MockEEPROM.store_bytes mem addr bytes (addr + Z.of_nat i) = nth i bytes 0.
Proof.
  revert mem addr i. induction bytes as [| v rest IH]; intros mem addr i Hi;
    [simpl in Hi; lia |].
  cbn [MockEEPROM.store_bytes]. destruct i as [| i].
  - rewrite store_bytes_outside by lia. unfold MockEEPROM.store.
    replace (addr + Z.of_nat 0) with addr by lia. rewrite Z.eqb_refl. reflexivity.
  - cbn [List.length] in Hi. cbn [nth].
    replace (addr + Z.of_nat (S i)) with (addr + 1 + Z.of_nat i) by lia.
    apply IH. lia.
Qed.

Lemma load_bytes_length (rx : list Z) (mem : Z -> Z) (addr : Z) :
  List.length (MockEEPROM.load_bytes mem addr rx) = List.length rx.
Proof.
  revert addr. induction rx as [| x rest IH]; intro addr; [reflexivity |].
  cbn [MockEEPROM.load_bytes List.length]. rewrite IH. reflexivity.
Qed.

Lemma load_store_bytes (bytes rx : list Z) (mem : Z -> Z) (addr : Z) :
  List.length rx = List.length bytes ->
  MockEEPROM.load_bytes (MockEEPROM.store_bytes mem addr bytes) addr rx = bytes.
Proof.
  revert rx mem addr. induction bytes as [| v rest IH]; intros rx mem addr Hlen.
  - destruct rx; [reflexivity | discriminate Hlen].
  - destruct rx as [| x rx]; [discriminate Hlen |].
    cbn [MockEEPROM.load_bytes MockEEPROM.store_bytes]. f_equal.
    + rewrite store_bytes_outside by lia. unfold MockEEPROM.store.
      rewrite Z.eqb_refl. reflexivity.
    + apply IH. simpl in Hlen. lia.
Qed.

(** The address the mock reads in the first two bytes of a transfer. *)
Lemma mock_address_of_bytes (hi lo : Z) (rest : list Z) :
  Int.is_uint8 hi -> Int.is_uint8 lo ->
  Int.to_uint16 (Z.lor (Z.shiftl (nth 0 (hi :: lo :: rest) 0) 8)
                       (nth 1 (hi :: lo :: rest) 0))
  = 256 * hi + lo.
Proof.
  intros Hhi Hlo. cbn [nth]. rewrite lor_shiftl_bytes by exact Hlo.
  apply to_uint16_small. unfold Int.is_uint8 in *. lia.
Qed.

(** X4.  A write to the idle EEPROM mock of two address bytes and at least
    one data byte that fits below the capacity is answered [OK]: the data
    bytes are stored from the address on, in order, every other byte of the
    memory keeps its value, and the mock enters its write cycle. *)
Theorem MockEEPROM_Write_stores
    (e : MockEEPROM.t) (hi lo : Z) (bytes : list Z) :
  MockEEPROM.m_writeInProgress e = false ->
  Int.is_uint8 hi -> Int.is_uint8 lo -> bytes <> [] ->
  256 * hi + lo + Z.of_nat (List.length bytes) <= MockEEPROM.CAPACITY ->
  let addr := 256 * hi + lo in
  let r := MockEEPROM.Write (hi :: lo :: bytes) e in
  fst r = OK
  /\ MockEEPROM.m_writeInProgress (snd r) = true
  /\ MockEEPROM.m_writeCycleCount (snd r) = 0
  /\ (forall i : nat, (i < List.length bytes)%nat ->
        MockEEPROM.m_memory (snd r) (addr + Z.of_nat i) = nth i bytes 0)
  /\ (forall j : Z, j < addr \/ addr + Z.of_nat (List.length bytes) <= j ->
        MockEEPROM.m_memory (snd r) j = MockEEPROM.m_memory e j).
Proof.
  intros Hidle Hhi Hlo Hne Hfit. cbv zeta.
  unfold MockEEPROM.Write. rewrite Hidle.
  rewrite mock_address_of_bytes by assumption.
  cbn [List.length skipn]. rewrite !Nat2Z.inj_succ.
  destruct bytes as [| b0 bytes]; [contradiction |].
  cbn [List.length] in *. rewrite Nat2Z.inj_succ in *.
  unfold MockEEPROM.CAPACITY in *.
  destruct (Z.ltb_spec (Z.succ (Z.succ (Z.succ (Z.of_nat (List.length bytes))))) 2);
    [lia |].
  destruct (Z.ltb_spec 2 (Z.succ (Z.succ (Z.succ (Z.of_nat (List.length bytes))))));
    [| lia].
  destruct (Z.ltb_spec 32768
              (256 * hi + lo
               + (Z.succ (Z.succ (Z.succ (Z.of_nat (List.length bytes)))) - 2)));
    [lia |].
  cbn [fst snd MockEEPROM.m_writeInProgress MockEEPROM.m_writeCycleCount
       MockEEPROM.m_memory].
  split; [reflexivity |]. split; [reflexivity |]. split; [reflexivity |]. split.
  - intros i Hi. apply store_bytes_inside. cbn [List.length]. exact Hi.
  - intros j Hj. apply store_bytes_outside. cbn [List.length].
    rewrite Nat2Z.inj_succ. exact Hj.
Qed.

Lemma MockEEPROM_Write_stores_witness :
  (MockEEPROM.m_writeInProgress MockEEPROM.create = false
   /\ Int.is_uint8 127 /\ Int.is_uint8 254 /\ [1; 104] <> []
   /\ 256 * 127 + 254 + Z.of_nat (List.length [1; 104]) <= MockEEPROM.CAPACITY)
  /\ fst (MockEEPROM.Write [127; 254; 1; 104] MockEEPROM.create) = OK
  /\ MockEEPROM.m_memory (snd (MockEEPROM.Write [127; 254; 1; 104] MockEEPROM.create))
       32767 = 104.
Proof.
  assert (H1 : MockEEPROM.m_writeInProgress MockEEPROM.create = false) by reflexivity.
  assert (H2 : Int.is_uint8 127) by (unfold Int.is_uint8; lia).
  assert (H3 : Int.is_uint8 254) by (unfold Int.is_uint8; lia).
  assert (H4 : [1; 104] <> []) by discriminate.
  assert (H5 : 256 * 127 + 254 + Z.of_nat (List.length [1; 104]) <= MockEEPROM.CAPACITY)
    by (unfold MockEEPROM.CAPACITY; simpl; lia).
  destruct (MockEEPROM_Write_stores MockEEPROM.create 127 254 [1; 104] H1 H2 H3 H4 H5)
    as [Hok [_ [_ [Hin _]]]].
  split; [exact (conj H1 (conj H2 (conj H3 (conj H4 H5)))) |].
  split; [exact Hok |]. exact (Hin 1%nat ltac:(simpl; lia)).
Defined.

(** X5.  An access that the EEPROM mock does not answer [OK] never changes
    its memory: a write refused for being busy, too short or out of bounds
    stores nothing; reads never store. *)
Theorem MockEEPROM_memory_frame (e : MockEEPROM.t) (data tx rx : list Z) :
  (fst (MockEEPROM.Write data e) <> OK ->
     forall j : Z,
       MockEEPROM.m_memory (snd (MockEEPROM.Write data e)) j = MockEEPROM.m_memory e j)
  /\ (forall j : Z,
       MockEEPROM.m_memory (snd (MockEEPROM.Read tx rx e)) j = MockEEPROM.m_memory e j)
  /\ (fst (fst (MockEEPROM.Read tx rx e)) <> OK ->
       snd (fst (MockEEPROM.Read tx rx e)) = rx)
  /\ List.length (snd (fst (MockEEPROM.Read tx rx e))) = List.length rx.
Proof.
  assert (Hbusy : forall j, MockEEPROM.m_memory (MockEEPROM.busy_step e) j
                            = MockEEPROM.m_memory e j).
  { intro j. unfold MockEEPROM.busy_step.
    destruct (5 <=? Int.to_uint32 (MockEEPROM.m_writeCycleCount e + 1)); reflexivity. }
  split; [| split; [| split]].
  - unfold MockEEPROM.Write.
    destruct (MockEEPROM.m_writeInProgress e); cbn [fst snd]; [intros _; exact Hbusy |].
    destruct (Z.of_nat (List.length data) <? 2); cbn [fst snd]; [reflexivity |].
    destruct (2 <? Z.of_nat (List.length data)); cbn [fst snd]; [| reflexivity].
    destruct (MockEEPROM.CAPACITY <? _); cbn [fst snd]; [reflexivity |].
    intro Hne. exfalso. apply Hne. reflexivity.
  - unfold MockEEPROM.Read.
    destruct (MockEEPROM.m_writeInProgress e); cbn [fst snd]; [exact Hbusy |].
    destruct (Z.of_nat (List.length tx) <? 2); cbn [fst snd]; [reflexivity |].
    destruct (MockEEPROM.CAPACITY <? _); reflexivity.
  - unfold MockEEPROM.Read.
    destruct (MockEEPROM.m_writeInProgress e); cbn [fst snd]; [reflexivity |].
    destruct (Z.of_nat (List.length tx) <? 2); cbn [fst snd]; [reflexivity |].
    destruct (MockEEPROM.CAPACITY <? _); cbn [fst snd]; [reflexivity |].
    intro Hne. exfalso. apply Hne. reflexivity.
  - unfold MockEEPROM.Read.
    destruct (MockEEPROM.m_writeInProgress e); cbn [fst snd]; [reflexivity |].
    destruct (Z.of_nat (List.length tx) <? 2); cbn [fst snd]; [reflexivity |].
    destruct (MockEEPROM.CAPACITY <? _); cbn [fst snd]; [reflexivity |].
    apply load_bytes_length.
Qed.

(** A second data write while the mock is still busy is lost. *)
Lemma MockEEPROM_memory_frame_witness :
  let busy := snd (MockEEPROM.Write [0; 0; 1; 104] MockEEPROM.create) in
  fst (MockEEPROM.Write [0; 0; 9; 9] busy) <> OK
  /\ MockEEPROM.m_memory (snd (MockEEPROM.Write [0; 0; 9; 9] busy)) 0 = 1.
Proof.
  cbv zeta.
  assert (Hne : fst (MockEEPROM.Write [0; 0; 9; 9]
                       (snd (MockEEPROM.Write [0; 0; 1; 104] MockEEPROM.create))) <> OK)
    by discriminate.
  split; [exact Hne |].
  exact (proj1 (MockEEPROM_memory_frame
                  (snd (MockEEPROM.Write [0; 0; 1; 104] MockEEPROM.create))
                  [0; 0; 9; 9] [] []) Hne 0).
Defined.

Lemma busy_steps_last (n : nat) (e : MockEEPROM.t) :
  busy_steps (S n) e = MockEEPROM.busy_step (busy_steps n e).
Proof.
  revert e. induction n as [| n IH]; intro e; [reflexivity |].
  cbn [busy_steps] in *. rewrite <- IH. reflexivity.
Qed.

(** X6.  While a write cycle is in progress the EEPROM mock answers every
    access with [Nack] and leaves a receive buffer as it was.  Starting from
    a cycle count [c] below 5, the mock is still busy after fewer than
    [5 - c] such accesses, and idle, with the count back at 0, after exactly
    [5 - c]. *)
Theorem MockEEPROM_write_cycle (e : MockEEPROM.t) (data tx rx : list Z) :
  MockEEPROM.m_writeInProgress e = true ->
  0 <= MockEEPROM.m_writeCycleCount e < 5 ->
  MockEEPROM.Write data e = (Nack, MockEEPROM.busy_step e)
  /\ MockEEPROM.Read tx rx e = ((Nack, rx), MockEEPROM.busy_step e)
  /\ (forall n : nat,
        Z.of_nat n < 5 - MockEEPROM.m_writeCycleCount e ->
        MockEEPROM.m_writeInProgress (busy_steps n e) = true
        /\ MockEEPROM.m_writeCycleCount (busy_steps n e)
           = MockEEPROM.m_writeCycleCount e + Z.of_nat n)
  /\ (forall n : nat,
        Z.of_nat n = 5 - MockEEPROM.m_writeCycleCount e ->
        MockEEPROM.m_writeInProgress (busy_steps n e) = false
        /\ MockEEPROM.m_writeCycleCount (busy_steps n e) = 0).
Proof.
  intros Hbusy Hc.
  assert (Hbelow : forall n : nat,
            Z.of_nat n < 5 - MockEEPROM.m_writeCycleCount e ->
            MockEEPROM.m_writeInProgress (busy_steps n e) = true
            /\ MockEEPROM.m_writeCycleCount (busy_steps n e)
               = MockEEPROM.m_writeCycleCount e + Z.of_nat n).
  { induction n as [| n IH]; intro Hn.
    - cbn [busy_steps]. split; [exact Hbusy | lia].
    - destruct (IH ltac:(lia)) as [Hb Hcount].
      rewrite busy_steps_last. unfold MockEEPROM.busy_step.
      rewrite Hcount, to_uint32_small by lia.
      destruct (Z.leb_spec 5 (MockEEPROM.m_writeCycleCount e + Z.of_nat n + 1)); [lia |].
      cbn [MockEEPROM.m_writeInProgress MockEEPROM.m_writeCycleCount].
      split; [exact Hb | lia]. }
  split; [| split; [| split]].
  - unfold MockEEPROM.Write. rewrite Hbusy. reflexivity.
  - unfold MockEEPROM.Read. rewrite Hbusy. reflexivity.
  - exact Hbelow.
  - intros n Hn. destruct n as [| n]; [lia |].
    destruct (Hbelow n ltac:(lia)) as [Hb Hcount].
    rewrite busy_steps_last. unfold MockEEPROM.busy_step.
    rewrite Hcount, to_uint32_small by lia.
    destruct (Z.leb_spec 5 (MockEEPROM.m_writeCycleCount e + Z.of_nat n + 1)); [| lia].
    split; reflexivity.
Qed.

Lemma MockEEPROM_write_cycle_witness :
  let busy := snd (MockEEPROM.Write [0; 0; 1; 104] MockEEPROM.create) in
  (MockEEPROM.m_writeInProgress busy = true
   /\ 0 <= MockEEPROM.m_writeCycleCount busy < 5)
  /\ MockEEPROM.m_writeInProgress (busy_steps 4 busy) = true
  /\ MockEEPROM.m_writeInProgress (busy_steps 5 busy) = false.
Proof.
  cbv zeta.
  assert (Hb : MockEEPROM.m_writeInProgress
                 (snd (MockEEPROM.Write [0; 0; 1; 104] MockEEPROM.create)) = true)
    by reflexivity.
  assert (Hc : 0 <= MockEEPROM.m_writeCycleCount
                      (snd (MockEEPROM.Write [0; 0; 1; 104] MockEEPROM.create)) < 5)
    by (simpl; lia).
  destruct (MockEEPROM_write_cycle
              (snd (MockEEPROM.Write [0; 0; 1; 104] MockEEPROM.create)) [] [] [] Hb Hc)
    as [_ [_ [Hbelow Hend]]].
  split; [exact (conj Hb Hc) |]. split.
  - exact (proj1 (Hbelow 4%nat ltac:(simpl; lia))).
  - exact (proj1 (Hend 5%nat ltac:(simpl; lia))).
Defined.

(** ** The storage driver on [MockI2C] *)

(** On [MockI2C] the 100 probes of [WaitForWriteComplete] see a fresh write
    cycle through: the first five end it, the others change nothing. *)
Lemma mock_poll_ends_write_cycle (mem : Z -> Z) (wa : Z) :
  EEPROM24FC256.WaitForWriteComplete eeprom_0x50
    (MockI2C.mk (MockEEPROM.mk mem true 0 wa))
  = (tt, MockI2C.mk (MockEEPROM.mk mem false 0 wa)).
Proof. reflexivity. Qed.

Lemma mock_data_write (mem : Z -> Z) (cnt wa ah al d0 d1 : Z) :
  Int.is_uint8 ah -> Int.is_uint8 al -> 256 * ah + al + 2 <= 32768 ->
  Write 80 [ah; al; d0; d1] (MockI2C.mk (MockEEPROM.mk mem false cnt wa))
  = (OK, MockI2C.mk (MockEEPROM.mk
                       (MockEEPROM.store (MockEEPROM.store mem (256 * ah + al) d0)
                          (256 * ah + al + 1) d1)
                       true 0 (256 * ah + al))).
Proof.
  intros Hah Hal Hfit.
  change (Write 80 [ah; al; d0; d1] (MockI2C.mk (MockEEPROM.mk mem false cnt wa)))
    with (MockI2C.on_eeprom (MockEEPROM.Write [ah; al; d0; d1])
            (MockI2C.mk (MockEEPROM.mk mem false cnt wa))).
  unfold MockI2C.on_eeprom, MockEEPROM.Write.
  cbn [MockI2C.m_eeprom MockEEPROM.m_writeInProgress].
  rewrite mock_address_of_bytes by assumption.
  cbn [List.length skipn MockEEPROM.store_bytes MockEEPROM.m_memory].
  change (Z.of_nat 4) with 4. cbn [Z.ltb Z.compare Pos.compare Pos.compare_cont Z.sub].
  unfold MockEEPROM.CAPACITY.
  destruct (Z.ltb_spec 32768 (256 * ah + al + (4 - 2))); [lia |]. reflexivity.
Qed.

Lemma mock_data_read (mem : Z -> Z) (cnt wa ah al : Z) :
  Int.is_uint8 ah -> Int.is_uint8 al -> 256 * ah + al + 2 <= 32768 ->
  WriteRead 80 [ah; al] [0; 0] (MockI2C.mk (MockEEPROM.mk mem false cnt wa))
  = ((OK, [mem (256 * ah + al); mem (256 * ah + al + 1)]),
     MockI2C.mk (MockEEPROM.mk mem false cnt wa)).
Proof.
  intros Hah Hal Hfit.
  change (WriteRead 80 [ah; al] [0; 0] (MockI2C.mk (MockEEPROM.mk mem false cnt wa)))
    with (MockI2C.on_eeprom (MockEEPROM.Read [ah; al] [0; 0])
            (MockI2C.mk (MockEEPROM.mk mem false cnt wa))).
  unfold MockI2C.on_eeprom, MockEEPROM.Read.
  cbn [MockI2C.m_eeprom MockEEPROM.m_writeInProgress].
  rewrite mock_address_of_bytes by assumption.
  cbn [List.length MockEEPROM.load_bytes MockEEPROM.m_memory].
  change (Z.of_nat 2) with 2. cbn [Z.ltb Z.compare Pos.compare Pos.compare_cont].
  unfold MockEEPROM.CAPACITY.
  destruct (Z.ltb_spec 32768 (256 * ah + al + 2)); [lia |]. reflexivity.
Qed.

(** X7.  On a [MockI2C] whose EEPROM is idle, [LogData] at an address that
    passes validation returns [true] and leaves the EEPROM idle again; a
    [ReadData] at the same address then returns the decoded encoded sample,
    that is the encoded sample over 16; and the bytes of the EEPROM outside
    the two of the sample keep their values. *)
Theorem MockI2C_LogData_then_ReadData
    (b : MockI2C.t) (memAddr : Z) (temp : Float32.float32) :
  MockEEPROM.m_writeInProgress (MockI2C.m_eeprom b) = false ->
  Int.is_uint16 memAddr ->
  ~ spec_exceeds_capacity memAddr -> ~ spec_crosses_page_mid_store memAddr ->
  let encoded := EEPROM24FC256.EncodeTemperature temp in
  let after := snd (EEPROM24FC256.LogData eeprom_0x50 memAddr temp b) in
  fst (EEPROM24FC256.LogData eeprom_0x50 memAddr temp b) = true
  /\ MockEEPROM.m_writeInProgress (MockI2C.m_eeprom after) = false
  /\ EEPROM24FC256.ReadData eeprom_0x50 memAddr after
     = (EEPROM24FC256.DecodeTemperature encoded, after)
  /\ (Float32.to_Q (fst (EEPROM24FC256.ReadData eeprom_0x50 memAddr after))
      == encoded # 16)%Q
  /\ (forall j : Z, j <> memAddr -> j <> memAddr + 1 ->
        MockEEPROM.m_memory (MockI2C.m_eeprom after) j
        = MockEEPROM.m_memory (MockI2C.m_eeprom b) j).
Proof.
  intros Hidle Hu Hc Hp. cbv zeta.
  destruct b as [[mem wip cnt wa]]. cbn in Hidle. subst wip.
  assert (Hcap : memAddr + 2 <= 32768)
    by (unfold spec_exceeds_capacity, EEPROM24FC256.CAPACITY in Hc; lia).
  pose proof (high_byte_range memAddr) as Hah.
  pose proof (low_byte_range memAddr) as Hal.
  pose proof (bytes_of_uint16 memAddr Hu) as Haddr.
  set (encoded := EEPROM24FC256.EncodeTemperature temp).
  assert (Henc : Int.is_int16 encoded)
    by (unfold encoded, EEPROM24FC256.EncodeTemperature, Float32.to_int16;
        apply to_int16_range).
  pose proof (high_byte_range encoded) as Hd0.
  pose proof (low_byte_range encoded) as Hd1.
  rewrite (LogData_accepted eeprom_0x50 memAddr temp _ Hu Hc Hp). cbv zeta.
  fold encoded. unfold EEPROM24FC256.payload.
  change (EEPROM24FC256.m_address eeprom_0x50) with 80.
  rewrite mock_data_write by (try assumption; lia).
  cbn [fst snd I2CStatus_eqb]. rewrite mock_poll_ends_write_cycle. cbn [fst snd].
  rewrite Haddr.
  set (mem' := MockEEPROM.store (MockEEPROM.store mem memAddr (Int.high_byte encoded))
                 (memAddr + 1) (Int.low_byte encoded)).
  assert (Hread : EEPROM24FC256.ReadData eeprom_0x50 memAddr
                    (MockI2C.mk (MockEEPROM.mk mem' false 0 memAddr))
                  = (EEPROM24FC256.DecodeTemperature encoded,
                     MockI2C.mk (MockEEPROM.mk mem' false 0 memAddr))).
  { rewrite ReadData_in_bounds by (unfold EEPROM24FC256.CAPACITY; lia).
    cbv zeta. unfold read_transaction.
    change (EEPROM24FC256.m_address eeprom_0x50) with 80.
    rewrite mock_data_read by (try assumption; lia).
    cbn [fst snd I2CStatus_eqb nth]. rewrite Haddr.
    assert (H0 : mem' memAddr = Int.high_byte encoded).
    { unfold mem', MockEEPROM.store.
      destruct (Z.eqb_spec memAddr (memAddr + 1)); [lia |].
      rewrite Z.eqb_refl. reflexivity. }
    assert (H1 : mem' (memAddr + 1) = Int.low_byte encoded).
    { unfold mem', MockEEPROM.store. rewrite Z.eqb_refl. reflexivity. }
    rewrite H0, H1, lor_shiftl_bytes by exact Hd1.
    rewrite bytes_of_int16 by exact Henc. reflexivity. }
  split; [reflexivity |]. split; [reflexivity |]. split; [exact Hread |]. split.
  - rewrite Hread. cbn [fst]. apply DecodeTemperature_exact. exact Henc.
  - intros j Hj0 Hj1. cbn [MockI2C.m_eeprom MockEEPROM.m_memory].
    unfold mem', MockEEPROM.store.
    destruct (Z.eqb_spec j (memAddr + 1)); [contradiction |].
    destruct (Z.eqb_spec j memAddr); [contradiction | reflexivity].
Qed.

(** Logging 22.5 at the last slot of a fresh [MockI2C] and reading it back. *)
Lemma MockI2C_LogData_then_ReadData_witness :
  (MockEEPROM.m_writeInProgress (MockI2C.m_eeprom MockI2C.create) = false
   /\ Int.is_uint16 32766
   /\ ~ spec_exceeds_capacity 32766 /\ ~ spec_crosses_page_mid_store 32766)
  /\ (Float32.to_Q
        (fst (EEPROM24FC256.ReadData eeprom_0x50 32766
                (snd (EEPROM24FC256.LogData eeprom_0x50 32766 temp_22_5
                        MockI2C.create))))
      == 360 # 16)%Q.
Proof.
  assert (Hi : MockEEPROM.m_writeInProgress (MockI2C.m_eeprom MockI2C.create) = false)
    by reflexivity.
  assert (Hu : Int.is_uint16 32766) by (unfold Int.is_uint16; lia).
  assert (Hc : ~ spec_exceeds_capacity 32766)
    by (unfold spec_exceeds_capacity, EEPROM24FC256.CAPACITY; lia).
  assert (Hp : ~ spec_crosses_page_mid_store 32766)
    by (unfold spec_crosses_page_mid_store, EEPROM24FC256.CAPACITY; lia).
  split; [exact (conj Hi (conj Hu (conj Hc Hp))) |].
  exact (proj1 (proj2 (proj2 (proj2
           (MockI2C_LogData_then_ReadData MockI2C.create 32766 temp_22_5
              Hi Hu Hc Hp))))).
Defined.

(** ** The sensor driver *)

Lemma raw12_range (rawData : list Z) : -2048 <= raw12 rawData < 2048.
Proof.
  unfold raw12.
  pose proof (to_int16_range
                (Z.lor (Z.shiftl (nth 0 rawData 0) 8) (nth 1 rawData 0))) as [Hlo Hhi].
  rewrite Z.shiftr_div_pow2 by lia. change (2 ^ 4) with 16.
  split.
  - apply Z.div_le_lower_bound; lia.
  - apply Z.div_lt_upper_bound; lia.
Qed.

Lemma sensor_value_on_12_bits : holds_on_block sensor_value_ok 12 (-2048) = true.
Proof. vm_compute. reflexivity. Qed.

Lemma sensor_value_facts (r : Z) :
  -2048 <= r < 2048 ->
  (Float32.to_Q (sensor_value r) == r # 16)%Q
  /\ Float32.ltb (sensor_value r) Float32.fm900_0 = false
  /\ Float32.trunc (Float32.mul (sensor_value r) Float32.f16_0) = r.
Proof.
  intro Hr.
  pose proof (holds_on_block_sound sensor_value_ok 12 (-2048)
                sensor_value_on_12_bits r ltac:(simpl; lia)) as Hok.
  unfold sensor_value_ok in Hok.
  apply andb_prop in Hok as [Hok Htr]. apply andb_prop in Hok as [Hq Hlt].
  split; [apply Qeq_bool_iff; exact Hq |].
  split; [apply negb_true_iff; exact Hlt | apply Z.eqb_eq; exact Htr].
Qed.

Section SensorReads.
Context {B : Type} `{II2CController B}.

Lemma ReadTemperature_unfold (dev : TMP100.t) (b : B) :
  TMP100.ReadTemperature dev b =
  let r := sensor_transaction dev b in
  (if I2CStatus_eqb (fst (fst r)) OK
   then sensor_value (raw12 (snd (fst r)))
   else Float32.fm999_0,
   snd r).
Proof.
  unfold TMP100.ReadTemperature, sensor_transaction, bind, ret. cbv zeta.
  destruct (WriteRead _ _ _ b) as [[st data] b']. cbn [fst snd].
  destruct (I2CStatus_eqb st OK) eqn:Hst; cbn [negb].
  - unfold sensor_value, raw12.
    rewrite (to_int16_small (Z.shiftr _ 4)).
    + reflexivity.
    + pose proof (raw12_range data) as Hr. unfold raw12 in Hr. lia.
  - reflexivity.
Qed.

End SensorReads.

(** X8.  [ReadTemperature] returns -999.0f when the transaction is answered
    by anything but [OK].  When it is answered [OK], the result is the signed
    12-bit reading held in the top twelve bits of the two bytes received,
    divided by 16, exactly: a value from -128 to 127.9375 that is never below
    -900, so it cannot be mistaken for the error value. *)
Theorem ReadTemperature_decodes
    {B : Type} `{II2CController B} (dev : TMP100.t) (b : B) :
  let status := fst (fst (sensor_transaction dev b)) in
  let rawData := snd (fst (sensor_transaction dev b)) in
  (status <> OK ->
     fst (TMP100.ReadTemperature dev b) = Float32.fm999_0)
  /\ Float32.ltb Float32.fm999_0 Float32.fm900_0 = true
  /\ (status = OK ->
      -2048 <= raw12 rawData < 2048
      /\ (Float32.to_Q (fst (TMP100.ReadTemperature dev b)) == raw12 rawData # 16)%Q
      /\ Float32.ltb (fst (TMP100.ReadTemperature dev b)) Float32.fm900_0 = false)
  /\ (forall hi lo : Z, Int.is_uint8 hi -> Int.is_uint8 lo ->
        raw12 [hi; lo] = Int.to_int16 (256 * hi + lo) / 16).
Proof.
  cbv zeta. rewrite ReadTemperature_unfold. cbv zeta. cbn [fst].
  split; [| split; [| split]].
  - intro Hst. apply I2CStatus_eqb_neq in Hst. rewrite Hst. reflexivity.
  - reflexivity.
  - intro Hst. rewrite Hst. cbn [I2CStatus_eqb].
    pose proof (raw12_range (snd (fst (sensor_transaction dev b)))) as Hr.
    destruct (sensor_value_facts _ Hr) as [Hq [Hlt _]].
    split; [exact Hr |]. split; [exact Hq | exact Hlt].
  - intros hi lo Hhi Hlo. unfold raw12. cbn [nth].
    rewrite lor_shiftl_bytes by exact Hlo.
    rewrite Z.shiftr_div_pow2 by lia. reflexivity.
Qed.

(** A sensor answering [OK] with the bytes [E7 00]: -25 degrees. *)
Lemma ReadTemperature_decodes_witness :
  fst (fst (@sensor_transaction unit (stub_bus 231 0) (TMP100.create 72) tt)) = OK
  /\ raw12 [231; 0] = -400
  /\ (Float32.to_Q (fst (@TMP100.ReadTemperature unit (stub_bus 231 0)
                          (TMP100.create 72) tt)) == -400 # 16)%Q.
Proof.
  assert (Hst : fst (fst (@sensor_transaction unit (stub_bus 231 0)
                            (TMP100.create 72) tt)) = OK) by reflexivity.
  split; [exact Hst |]. split; [reflexivity |].
  destruct (@ReadTemperature_decodes unit (stub_bus 231 0) (TMP100.create 72) tt)
    as [_ [_ [Hok _]]].
  exact (proj1 (proj2 (Hok Hst))).
Defined.

(** X9.  [WriteConfig] performs one transaction, a write of the configuration
    register number and the value to the sensor address.  It returns [true]
    and records the value in [m_configCache] exactly when that write is
    answered [OK]; otherwise it returns [false] and the cache keeps its value.
    [Init] is [WriteConfig] with 0x60 (12 bits, continuous conversion). *)
Theorem WriteConfig_caches_on_success
    {B : Type} `{II2CController B} (dev : TMP100.t) (value : Z) (tb : Traced B) :
  let st := fst (Write (TMP100.m_address dev) [1; value] tb) in
  let r := TMP100.WriteConfig dev value tb in
  calls (snd r) = calls tb ++ [(CallWrite (TMP100.m_address dev) [1; value], st)]
  /\ fst (fst r) = I2CStatus_eqb st OK
  /\ TMP100.m_address (snd (fst r)) = TMP100.m_address dev
  /\ (st = OK -> TMP100.m_configCache (snd (fst r)) = value)
  /\ (st <> OK -> TMP100.m_configCache (snd (fst r)) = TMP100.m_configCache dev)
  /\ TMP100.Init dev tb = TMP100.WriteConfig dev 96 tb.
Proof.
  cbv zeta. unfold TMP100.WriteConfig, bind, ret.
  change TMP100.REG_CONFIG with 1. rewrite traced_Write. cbn [fst snd].
  destruct (I2CStatus_eqb (fst (Write (TMP100.m_address dev) [1; value] (inner tb))) OK)
    eqn:Hst; cbn [fst snd calls TMP100.m_address TMP100.m_configCache].
  - repeat split. intro Hne. apply I2CStatus_eqb_eq in Hst. contradiction.
  - repeat split. intro He. apply I2CStatus_eqb_neq in Hst. contradiction.
Qed.

(** On [MockI2C], which has no sensor: [Init] fails after one write of
    [01 60] to 0x48 and the cache stays 0. *)
Lemma WriteConfig_caches_on_success_witness :
  calls (snd (TMP100.Init (TMP100.create 72) fresh_mock))
  = [(CallWrite 72 [1; 96], Nack)]
  /\ fst (TMP100.Init (TMP100.create 72) fresh_mock) = (false, TMP100.create 72).
Proof.
  destruct (WriteConfig_caches_on_success (TMP100.create 72) 96 fresh_mock)
    as [Hcalls [_ [_ [_ [_ Hinit]]]]].
  rewrite Hinit. split; [exact Hcalls | reflexivity].
Defined.

(** ** [MockI2C] *)

(** X10.  [MockI2C] routes only address 0x50, to its EEPROM.  At every other
    address each of the three operations is answered [Nack] and the EEPROM is
    left as it was; a plain [Read] is answered [Nack] at 0x50 too.  So a
    TMP100 driver at any address other than 0x50 fails [Init] and reads
    -999.0f. *)
Theorem MockI2C_only_routes_the_EEPROM
    (addr : Z) (data tx rx : list Z) (b : MockI2C.t) :
  (addr <> 80 ->
     Write addr data b = (Nack, b)
     /\ fst (fst (Read addr rx b)) = Nack /\ snd (Read addr rx b) = b
     /\ fst (fst (WriteRead addr tx rx b)) = Nack /\ snd (WriteRead addr tx rx b) = b
     /\ TMP100.Init (TMP100.create addr) b = ((false, TMP100.create addr), b)
     /\ TMP100.ReadTemperature (TMP100.create addr) b = (Float32.fm999_0, b))
  /\ Read 80 rx b = ((Nack, rx), b).
Proof.
  split; [| reflexivity].
  intro Hne.
  assert (Hw : forall d, Write addr d b = (Nack, b)).
  { intro d. change (Write addr d b) with (MockI2C.Write addr d b).
    unfold MockI2C.Write. destruct (Z.eqb_spec addr 80); [contradiction |].
    destruct (addr =? 72); reflexivity. }
  assert (Hwr : forall t r, fst (fst (WriteRead addr t r b)) = Nack
                            /\ snd (WriteRead addr t r b) = b).
  { intros t r. change (WriteRead addr t r b) with (MockI2C.WriteRead addr t r b).
    unfold MockI2C.WriteRead. destruct (Z.eqb_spec addr 80); [contradiction |].
    destruct (addr =? 72); split; reflexivity. }
  split; [apply Hw |].
  assert (Hr : fst (fst (Read addr rx b)) = Nack /\ snd (Read addr rx b) = b).
  { change (Read addr rx b) with (MockI2C.Read addr rx b).
    unfold MockI2C.Read. destruct (Z.eqb_spec addr 80); [contradiction |].
    destruct (addr =? 72); split; reflexivity. }
  split; [exact (proj1 Hr) |]. split; [exact (proj2 Hr) |].
  split; [exact (proj1 (Hwr tx rx)) |]. split; [exact (proj2 (Hwr tx rx)) |].
  split.
  - unfold TMP100.Init, TMP100.WriteConfig, bind, ret.
    cbn [TMP100.m_address TMP100.create]. rewrite Hw. reflexivity.
  - rewrite ReadTemperature_unfold. cbv zeta. unfold sensor_transaction.
    cbn [TMP100.m_address TMP100.create].
    destruct (Hwr [TMP100.REG_TEMPERATURE] [0; 0]) as [Hst Hb].
    rewrite Hst, Hb. reflexivity.
Qed.

Lemma MockI2C_only_routes_the_EEPROM_witness :
  72 <> 80
  /\ TMP100.ReadTemperature (TMP100.create 72) MockI2C.create
     = (Float32.fm999_0, MockI2C.create).
Proof.
  assert (Hne : 72 <> 80) by discriminate.
  split; [exact Hne |].
  destruct (proj1 (MockI2C_only_routes_the_EEPROM 72 [] [] [] MockI2C.create) Hne)
    as [_ [_ [_ [_ [_ [_ Hread]]]]]].
  exact Hread.
Defined.

(** ** Further properties of the logging loop *)

Lemma placeholder_on_sample_counts : holds_on_block placeholder_ok 14 0 = true.
Proof. vm_compute. reflexivity. Qed.

Lemma placeholder_encoded_range (c : Z) :
  0 <= c < 16384 ->
  320 <= Float32.trunc (Float32.mul (placeholder c) Float32.f16_0) <= 2941.
Proof.
  intro Hc.
  pose proof (holds_on_block_sound placeholder_ok 14 0
                placeholder_on_sample_counts c ltac:(simpl; lia)) as Hok.
  unfold placeholder_ok in Hok. cbv zeta in Hok.
  apply andb_prop in Hok as [Hlo Hhi].
  apply Z.leb_le in Hlo. apply Z.leb_le in Hhi. lia.
Qed.

Section LogCycleSample.
Context {B : Type} `{II2CController B}.

(** The sample a log cycle takes, and the flags it leaves. *)
Lemma log_cycle_sample (currentTime : Z) (st : Main.State B) :
  let r := sensor_transaction (Main.tempSensor st) (Main.i2cBus st) in
  let ok := I2CStatus_eqb (fst (fst r)) OK in
  let temperature :=
    if ok then sensor_value (raw12 (snd (fst r)))
    else placeholder (Main.g_sampleCount (Main.globals st)) in
  let g := Main.globals (Main.log_cycle currentTime st) in
  Main.g_readSuccess g = ok
  /\ Main.g_lastTemperature g = temperature
  /\ Main.g_lastEncoded g = EEPROM24FC256.EncodeTemperature temperature
  /\ Main.g_writeSuccess g
     = fst (EEPROM24FC256.LogData (Main.dataLogger st) (Main.eepromAddress st)
              temperature (snd r)).
Proof.
  cbv zeta. unfold Main.log_cycle. rewrite ReadTemperature_unfold. cbv zeta.
  set (r := sensor_transaction (Main.tempSensor st) (Main.i2cBus st)).
  destruct (I2CStatus_eqb (fst (fst r)) OK) eqn:Hst.
  - destruct (sensor_value_facts _ (raw12_range (snd (fst r)))) as [_ [Hlt _]].
    rewrite Hlt.
    destruct (EEPROM24FC256.LogData _ _ _ _) as [ok bus2]. repeat split.
  - change (Float32.ltb Float32.fm999_0 Float32.fm900_0) with true. cbv iota.
    fold (placeholder (Main.g_sampleCount (Main.globals st))).
    destruct (EEPROM24FC256.LogData _ _ _ _) as [ok bus2]. repeat split.
Qed.

End LogCycleSample.

(** X11.  In a log cycle, [g_readSuccess] is [true] exactly when the sensor
    transaction was answered [OK].  The sample is then the sensor's value and
    its encoding is the sensor's 12-bit reading itself; otherwise the sample
    is [20.0f + g_sampleCount * 0.01f], whose encoding lies between 320 and
    2941 for every sample count below 16384.  Either way sixteen times the
    sample truncates to an [int16_t], so the conversion in
    [EncodeTemperature] is never out of range, and [g_lastEncoded] is that
    integer. *)
Theorem log_cycle_sample_and_encoding
    {B : Type} `{II2CController B} (currentTime : Z) (st : Main.State B) :
  0 <= Main.g_sampleCount (Main.globals st) < 16384 ->
  let r := sensor_transaction (Main.tempSensor st) (Main.i2cBus st) in
  let g := Main.globals (Main.log_cycle currentTime st) in
  let scaled := Float32.trunc (Float32.mul (Main.g_lastTemperature g) Float32.f16_0) in
  (Main.g_readSuccess g = true <-> fst (fst r) = OK)
  /\ (fst (fst r) = OK ->
      Main.g_lastTemperature g = sensor_value (raw12 (snd (fst r)))
      /\ Main.g_lastEncoded g = raw12 (snd (fst r)))
  /\ (fst (fst r) <> OK ->
      Main.g_lastTemperature g = placeholder (Main.g_sampleCount (Main.globals st))
      /\ 320 <= Main.g_lastEncoded g <= 2941)
  /\ Int.is_int16 scaled
  /\ Main.g_lastEncoded g = scaled.
Proof.
  intro Hcount. cbv zeta.
  destruct (log_cycle_sample currentTime st) as [Hread [Htemp [Henc _]]].
  rewrite Hread, Htemp, Henc. clear Hread Htemp Henc.
  set (r := sensor_transaction (Main.tempSensor st) (Main.i2cBus st)).
  pose proof (raw12_range (snd (fst r))) as Hr.
  destruct (sensor_value_facts _ Hr) as [_ [_ Htr]].
  pose proof (placeholder_encoded_range _ Hcount) as Hp.
  unfold EEPROM24FC256.EncodeTemperature, Float32.to_int16.
  destruct (I2CStatus_eqb (fst (fst r)) OK) eqn:Hst.
  - apply I2CStatus_eqb_eq in Hst. rewrite Htr.
    rewrite to_int16_small by lia.
    split; [split; intro; [exact Hst | reflexivity] |].
    split; [intros _; split; reflexivity |].
    split; [intro Hne; contradiction |].
    split; [unfold Int.is_int16; lia | reflexivity].
  - apply I2CStatus_eqb_neq in Hst.
    rewrite to_int16_small by lia.
    split; [split; intro Hx; [discriminate Hx | contradiction] |].
    split; [intro He; contradiction |].
    split; [intros _; split; [reflexivity | exact Hp] |].
    split; [unfold Int.is_int16; lia | reflexivity].
Qed.

(** After the first cycle of [main] on [MockI2C], where the sensor read
    failed: the sample is 20.0f, encoded 320. *)
Lemma log_cycle_sample_and_encoding_witness :
  0 <= Main.g_sampleCount (Main.globals (set_time 600 mock_startup)) < 16384
  /\ Main.g_readSuccess (Main.globals (Main.log_cycle 600 (set_time 600 mock_startup)))
     = false
  /\ Main.g_lastEncoded (Main.globals (Main.log_cycle 600 (set_time 600 mock_startup)))
     = 320.
Proof.
  assert (Hc : 0 <= Main.g_sampleCount (Main.globals (set_time 600 mock_startup)) < 16384)
    by (simpl; lia).
  split; [exact Hc |]. split; [reflexivity |].
  destruct (log_cycle_sample_and_encoding 600 (set_time 600 mock_startup) Hc)
    as [_ [_ [_ [_ Henc]]]].
  rewrite Henc. reflexivity.
Defined.

Section MainLoopRuns.
Context {B : Type} `{II2CController B}.

Lemma main_loop_idle (fuel : nat) (st : Main.State B) :
  Main.interval_elapsed (MockTimer.GetElapsedSeconds (Main.timer st))
    (Main.lastLogTime st) = false ->
  Main.main_loop fuel st = st.
Proof.
  intro Hidle. induction fuel as [| fuel IH]; [reflexivity |].
  cbn [Main.main_loop]. rewrite (loop_iteration_idle st Hidle), IH.
  destruct (Main.g_sampleCount (Main.globals st) <? 16384); reflexivity.
Qed.

Lemma startup_timer (bus0 : B) :
  Main.timer (Main.startup bus0) = MockTimer.mk 0.
Proof.
  unfold Main.startup. destruct (TMP100.Init _ _) as [[ok sensor] bus1]. reflexivity.
Qed.

End MainLoopRuns.

(** X12.  [main] as written never logs: at loop entry the timer reads 0 and
    [lastLogTime] is 0, nothing in the loop advances the timer before the
    first log cycle, so every iteration leaves the state as it is, with
    [g_sampleCount] at 0 and the loop condition true. *)
Theorem main_never_logs_on_its_own
    {B : Type} `{II2CController B} (bus0 : B) (fuel : nat) :
  Main.main_loop fuel (Main.startup bus0) = Main.startup bus0
  /\ Main.g_sampleCount (Main.globals (Main.main_loop fuel (Main.startup bus0))) = 0
  /\ Main.eepromAddress (Main.main_loop fuel (Main.startup bus0)) = 0.
Proof.
  assert (Hfix : Main.main_loop fuel (Main.startup bus0) = Main.startup bus0).
  { apply main_loop_idle. rewrite startup_timer.
    destruct (startup_locals bus0) as [_ [-> _]]. reflexivity. }
  rewrite Hfix. destruct (startup_locals bus0) as [Ha [_ Hc]].
  split; [reflexivity |]. split; assumption.
Qed.

Lemma main_never_logs_on_its_own_witness :
  Main.main_loop 1000 mock_startup = mock_startup.
Proof.
  exact (proj1 (main_never_logs_on_its_own MockI2C.create 1000)).
Defined.

Lemma next_cursor_mod (cursor : Z) :
  cursor_ok cursor -> next_cursor cursor = (cursor + 2) mod 32766.
Proof.
  unfold cursor_ok, next_cursor, EEPROM24FC256.CAPACITY. intros [Hev Hr].
  destruct (Z.geb_spec (cursor + 2) (32768 - 2)) as [Hge | Hlt].
  - replace (cursor + 2) with 32766.
    + reflexivity.
    + assert (cursor <> 32765) by (intro E; rewrite E in Hev; discriminate Hev). lia.
  - rewrite Z.mod_small by lia. reflexivity.
Qed.

(** X13.  Once the timer is at least 600 s past [lastLogTime], every
    iteration of the loop logs, because each cycle advances the timer by 600
    itself: given enough iterations the loop ends with [g_sampleCount] at
    16384.  The cursor has then moved by two bytes per cycle modulo 32766
    (the circular store has 16383 slots), and the timer by 600 s per cycle.
    Entered at 600 s from the startup state, the 16384 cycles of [main] leave
    the cursor at 2, not at 0. *)
Theorem main_loop_runs_to_completion
    {B : Type} `{II2CController B} (fuel : nat) (st : Main.State B) :
  let tick := MockTimer.m_tickCount (Main.timer st) in
  let count := Main.g_sampleCount (Main.globals st) in
  0 <= Main.lastLogTime st -> Main.lastLogTime st + 600 <= tick ->
  0 <= count <= 16384 ->
  tick + 600 * (16384 - count) < 4294967296 ->
  cursor_ok (Main.eepromAddress st) ->
  16384 - count <= Z.of_nat fuel ->
  Main.g_sampleCount (Main.globals (Main.main_loop fuel st)) = 16384
  /\ Main.eepromAddress (Main.main_loop fuel st)
     = (Main.eepromAddress st + 2 * (16384 - count)) mod 32766
  /\ MockTimer.m_tickCount (Main.timer (Main.main_loop fuel st))
     = tick + 600 * (16384 - count).
Proof.
  cbv zeta. revert st. induction fuel as [| fuel IH];
    intros st Hlast Htick Hcount Hwrap Hcur Hfuel.
  - cbn [Main.main_loop].
    assert (Hc : Main.g_sampleCount (Main.globals st) = 16384) by lia.
    rewrite Hc. split; [reflexivity |]. split; [| lia].
    replace (2 * (16384 - 16384)) with 0 by lia. rewrite Z.add_0_r.
    unfold cursor_ok, EEPROM24FC256.CAPACITY in Hcur. rewrite Z.mod_small; lia.
  - cbn [Main.main_loop].
    destruct (Z.ltb_spec (Main.g_sampleCount (Main.globals st)) 16384) as [Hlt | Hge].
    + assert (Htrig : Main.interval_elapsed
                        (MockTimer.GetElapsedSeconds (Main.timer st))
                        (Main.lastLogTime st) = true).
      { unfold Main.interval_elapsed, MockTimer.GetElapsedSeconds.
        rewrite to_uint32_small by lia. apply Z.leb_le. lia. }
      rewrite (loop_iteration_triggered st Htrig).
      set (st' := Main.log_cycle (MockTimer.GetElapsedSeconds (Main.timer st)) st).
      assert (Hl' : Main.lastLogTime st' = MockTimer.m_tickCount (Main.timer st))
        by (unfold st'; apply log_cycle_lastLogTime).
      assert (Ht' : MockTimer.m_tickCount (Main.timer st')
                    = MockTimer.m_tickCount (Main.timer st) + 600).
      { unfold st'. rewrite log_cycle_timer. unfold MockTimer.AdvanceTime.
        cbn [MockTimer.m_tickCount]. apply to_uint32_small. lia. }
      assert (Hc' : Main.g_sampleCount (Main.globals st')
                    = Main.g_sampleCount (Main.globals st) + 1).
      { unfold st'. rewrite log_cycle_sampleCount. apply to_uint32_small. lia. }
      assert (Ha' : Main.eepromAddress st'
                    = (Main.eepromAddress st + 2) mod 32766).
      { unfold st'. rewrite log_cycle_next_cursor by exact Hcur.
        apply next_cursor_mod. exact Hcur. }
      assert (Hcur' : cursor_ok (Main.eepromAddress st')).
      { unfold st'. rewrite log_cycle_next_cursor by exact Hcur.
        apply next_cursor_ok. exact Hcur. }
      destruct (IH st') as [Hcnt [Haddr Htm]]; try lia; try exact Hcur'.
      split; [exact Hcnt |]. split.
      * rewrite Haddr, Ha', Hc'. rewrite Z.add_mod_idemp_l by lia.
        f_equal. lia.
      * rewrite Htm, Ht', Hc'. lia.
    + assert (Hc : Main.g_sampleCount (Main.globals st) = 16384) by lia.
      rewrite Hc. split; [reflexivity |]. split; [| lia].
      replace (2 * (16384 - 16384)) with 0 by lia. rewrite Z.add_0_r.
      unfold cursor_ok, EEPROM24FC256.CAPACITY in Hcur. rewrite Z.mod_small; lia.
Qed.

Lemma main_loop_runs_to_completion_witness :
  let st := set_time 600 mock_startup in
  (0 <= Main.lastLogTime st
   /\ Main.lastLogTime st + 600 <= MockTimer.m_tickCount (Main.timer st)
   /\ 0 <= Main.g_sampleCount (Main.globals st) <= 16384
   /\ cursor_ok (Main.eepromAddress st))
  /\ Main.g_sampleCount (Main.globals (Main.main_loop (Z.to_nat 16384) st)) = 16384
  /\ Main.eepromAddress (Main.main_loop (Z.to_nat 16384) st) = 2.
Proof.
  cbv zeta.
  assert (H1 : 0 <= Main.lastLogTime (set_time 600 mock_startup)) by (simpl; lia).
  assert (H2 : Main.lastLogTime (set_time 600 mock_startup) + 600
               <= MockTimer.m_tickCount (Main.timer (set_time 600 mock_startup)))
    by (simpl; lia).
  assert (H3 : 0 <= Main.g_sampleCount (Main.globals (set_time 600 mock_startup))
               <= 16384) by (simpl; lia).
  assert (H4 : MockTimer.m_tickCount (Main.timer (set_time 600 mock_startup))
               + 600 * (16384
                        - Main.g_sampleCount (Main.globals (set_time 600 mock_startup)))
               < 4294967296) by (simpl; lia).
  assert (H5 : cursor_ok (Main.eepromAddress (set_time 600 mock_startup)))
    by (unfold cursor_ok, EEPROM24FC256.CAPACITY; simpl; split; [reflexivity | lia]).
  assert (H6 : 16384 - Main.g_sampleCount (Main.globals (set_time 600 mock_startup))
               <= Z.of_nat (Z.to_nat 16384)) by (simpl Main.g_sampleCount; lia).
  destruct (main_loop_runs_to_completion (Z.to_nat 16384) (set_time 600 mock_startup)
              H1 H2 H3 H4 H5 H6) as [Hcount [Haddr _]].
  split; [exact (conj H1 (conj H2 (conj H3 H5))) |].
  split; [exact Hcount |]. rewrite Haddr. reflexivity.
Defined.

(** ** [MockTimer] *)

Lemma ticks_AdvanceTime (n : nat) (tm : MockTimer.t) :
  Int.is_uint32 (MockTimer.m_tickCount tm) ->
  ticks n tm = MockTimer.AdvanceTime (Z.of_nat n) tm.
Proof.
  revert tm. induction n as [| n IH]; intros tm Hu.
  - cbn [ticks]. unfold MockTimer.AdvanceTime. destruct tm as [c].
    cbn [MockTimer.m_tickCount] in *. rewrite Z.add_0_r, to_uint32_small by exact Hu.
    reflexivity.
  - cbn [ticks]. rewrite IH.
    + unfold MockTimer.AdvanceTime, MockTimer.Tick, Int.to_uint32.
      cbn [MockTimer.m_tickCount]. rewrite Z.add_mod_idemp_l by lia.
      f_equal. f_equal. lia.
    + unfold MockTimer.Tick, Int.is_uint32, Int.to_uint32. cbn [MockTimer.m_tickCount].
      apply Z.mod_pos_bound. lia.
Qed.

(** X14.  On a [MockTimer] whose count is a [uint32_t]: [n] ticks are one
    [AdvanceTime] by [n]; two advances are one advance by the sum; the count
    stays a [uint32_t], wrapping at 2^32; and [n] ticks after [Init] read as
    [n] seconds while [n] is below 2^32. *)
Theorem MockTimer_advances_compose
    (tm : MockTimer.t) (n : nat) (s1 s2 : Z) :
  Int.is_uint32 (MockTimer.m_tickCount tm) ->
  ticks n tm = MockTimer.AdvanceTime (Z.of_nat n) tm
  /\ MockTimer.AdvanceTime s2 (MockTimer.AdvanceTime s1 tm)
     = MockTimer.AdvanceTime (s1 + s2) tm
  /\ Int.is_uint32 (MockTimer.GetElapsedSeconds (MockTimer.AdvanceTime s1 tm))
  /\ MockTimer.GetElapsedSeconds (ticks n (MockTimer.Init tm))
     = Z.of_nat n mod 4294967296
  /\ (Z.of_nat n < 4294967296 ->
      MockTimer.GetElapsedSeconds (ticks n (MockTimer.Init tm)) = Z.of_nat n).
Proof.
  intro Hu.
  assert (Hinit : MockTimer.GetElapsedSeconds (ticks n (MockTimer.Init tm))
                  = Z.of_nat n mod 4294967296).
  { rewrite ticks_AdvanceTime by (unfold Int.is_uint32; simpl; lia). reflexivity. }
  split; [apply ticks_AdvanceTime; exact Hu |]. split; [| split; [| split]].
  - unfold MockTimer.AdvanceTime, Int.to_uint32. cbn [MockTimer.m_tickCount].
    rewrite Z.add_mod_idemp_l by lia. f_equal. f_equal. lia.
  - unfold MockTimer.GetElapsedSeconds, MockTimer.AdvanceTime, Int.is_uint32,
      Int.to_uint32. cbn [MockTimer.m_tickCount]. apply Z.mod_pos_bound. lia.
  - exact Hinit.
  - intro Hn. rewrite Hinit. apply Z.mod_small. lia.
Qed.

(** The usage example of [MockTimer.hpp]: 601 ticks read as 601 seconds. *)
Lemma MockTimer_advances_compose_witness :
  Int.is_uint32 (MockTimer.m_tickCount MockTimer.create)
  /\ MockTimer.GetElapsedSeconds (ticks 601 (MockTimer.Init MockTimer.create)) = 601.
Proof.
  assert (Hu : Int.is_uint32 (MockTimer.m_tickCount MockTimer.create))
    by (unfold Int.is_uint32; simpl; lia).
  split; [exact Hu |].
  destruct (MockTimer_advances_compose MockTimer.create 601 0 0 Hu)
    as [_ [_ [_ [_ Hn]]]].
  exact (Hn ltac:(simpl; lia)).
Defined.

Section SkippedSlots.
Context {B : Type} `{II2CController B}.



End SkippedSlots.



(** ** The interval between log events *)

Lemma trigger_times_spaced (reads : list Z) (lastLogTime : Z) :
  0 <= lastLogTime -> nondecreasing_from lastLogTime reads ->
  spaced_from lastLogTime (trigger_times reads lastLogTime).
Proof.
  revert lastLogTime. induction reads as [| t rest IH]; intros last Hlast Hnd;
    [exact I |].
  cbn [trigger_times]. destruct Hnd as [Ht Hrest].
  destruct (Main.interval_elapsed t last) eqn:Hel.
  - cbn [spaced_from]. split.
    + apply (interval_elapsed_monotonic t last) in Hel;
        [lia | unfold Int.is_uint32; lia | lia].
    + apply IH; [lia | exact Hrest].
  - apply IH; [exact Hlast |].
    clear IH Hel. destruct rest as [| t' rest']; [exact I |].
    cbn [nondecreasing_from] in *. destruct Hrest as [Ht' Hr]. split; [lia | exact Hr].
Qed.

(** X16.  When the successive reads of the time source never go backwards
    (and stay below 2^32), the loop never logs twice within 600 s: each log
    event is at least 600 s after the previous one, and the first at least
    600 s after the [lastLogTime] the run starts with. *)
Theorem log_events_at_least_600s_apart
    {B : Type} `{II2CController B} (reads : list Z) (st : Main.State B) :
  0 <= Main.lastLogTime st ->
  nondecreasing_from (Main.lastLogTime st) reads ->
  spaced_from (Main.lastLogTime st) (fst (run_reads reads st)).
Proof.
  intros Hlast Hnd. rewrite run_reads_trigger_times.
  apply trigger_times_spaced; assumption.
Qed.

(** Reads that do not fall on multiples of 600: the events drift. *)
Lemma log_events_at_least_600s_apart_witness :
  (0 <= Main.lastLogTime mock_startup
   /\ nondecreasing_from (Main.lastLogTime mock_startup) [0; 650; 1200; 1250; 1900])
  /\ fst (run_reads [0; 650; 1200; 1250; 1900] mock_startup) = [650; 1250; 1900]
  /\ spaced_from 0 [650; 1250; 1900].
Proof.
  assert (H0 : 0 <= Main.lastLogTime mock_startup) by (simpl; lia).
  assert (Hnd : nondecreasing_from (Main.lastLogTime mock_startup)
                  [0; 650; 1200; 1250; 1900])
    by (simpl; repeat split; lia).
  pose proof (log_events_at_least_600s_apart [0; 650; 1200; 1250; 1900] mock_startup
                H0 Hnd) as Hsp.
  split; [exact (conj H0 Hnd) |]. split; [reflexivity |]. exact Hsp.
Defined.

(** ** The default [WriteRead] on the bus *)

Lemma traced_Read {B : Type} `{II2CController B}
    (addr : Z) (rx : list Z) (tb : Traced B) :
  Read addr rx tb =
  (fst (Read addr rx (inner tb)),
   mkTraced (snd (Read addr rx (inner tb)))
            (calls tb ++ [(CallRead addr (List.length rx),
                           fst (fst (Read addr rx (inner tb))))])).
Proof.
  simpl. unfold traced_call. destruct (Read addr rx (inner tb)); reflexivity.
Qed.

(** X17.  The default [WriteRead] is not one combined transaction: on the bus
    it is a [Write] of the transmit bytes followed, only when that write was
    answered [OK], by a separate [Read] of the receive length.  After a
    refused write nothing else is sent. *)
Theorem default_WriteRead_is_two_transactions
    {B : Type} `{II2CController B} (addr : Z) (tx rx : list Z) (tb : Traced B) :
  let st := fst (Write addr tx tb) in
  let r := default_WriteRead Write Read addr tx rx tb in
  (st <> OK -> calls (snd r) = calls tb ++ [(CallWrite addr tx, st)])
  /\ (st = OK ->
      exists st' : I2CStatus,
        fst (fst r) = st'
        /\ calls (snd r)
           = calls tb ++ [(CallWrite addr tx, OK);
                          (CallRead addr (List.length rx), st')]).
Proof.
  cbv zeta. unfold default_WriteRead, bind, ret. rewrite traced_Write. cbn [fst snd].
  set (st := fst (Write addr tx (inner tb))).
  destruct (I2CStatus_eqb st OK) eqn:Hst; cbn [negb].
  - apply I2CStatus_eqb_eq in Hst. split; [intro Hne; contradiction |].
    intros _. rewrite traced_Read. cbn [fst snd calls inner].
    eexists. split; [reflexivity |]. rewrite Hst, <- app_assoc. reflexivity.
  - apply I2CStatus_eqb_neq in Hst. split; [intros _; reflexivity |].
    intro He. contradiction.
Qed.

(** On [MockI2C], whose plain [Read] is never acknowledged: the default
    [WriteRead] at the EEPROM address writes the two address bytes, then
    reads and gets [Nack]. *)
Lemma default_WriteRead_is_two_transactions_witness :
  fst (Write 80 [0; 0] fresh_mock) = OK
  /\ calls (snd (default_WriteRead Write Read 80 [0; 0] [0; 0] fresh_mock))
     = [(CallWrite 80 [0; 0], OK); (CallRead 80 2, Nack)].
Proof.
  assert (Hok : fst (Write 80 [0; 0] fresh_mock) = OK) by reflexivity.
  split; [exact Hok |].
  destruct (proj2 (default_WriteRead_is_two_transactions 80 [0; 0] [0; 0] fresh_mock)
              Hok) as [st' [Hst Hcalls]].
  rewrite Hcalls. rewrite <- Hst. reflexivity.
Defined.

